(** * weekly-analytics: the extraction, mapping, validation and aggregation pipeline

    A shallow embedding of [models/data_models.py] (the pydantic models
    [Contact], [FunnelEntry], [FunnelData] and the two metadata models), of
    [core/extraction.py] (the methods of [ExcelExtractor]) and of the
    context of [utils/logging_utils.py]'s [ContextLogger], followed by the
    properties the specification states about them and by further
    properties of the code.

    Python values are modelled as they are at run time: a [float] is an IEEE
    binary64 number (Rocq's primitive floats, NaN included), a [datetime] is
    the tuple of its calendar fields with its offset from UTC when it is
    aware, a [dict] is a finite map, with strings as keys or, for the rows
    of a sheet, the labels of the columns, exceptions are values of [exn]
    and a call that may raise returns a sum [exn + T].  Logging is a side channel without effect on results; the
    results are modelled without it, and the context that the logger of an
    extractor adds to its messages is modelled on its own. *)

From Stdlib Require Import Floats ZArith DecimalString.
From stdpp Require Import gmap strings list fin_maps.

Local Open Scope string_scope.
Local Open Scope list_scope.

(** ** Python values *)

(** [datetime.datetime]: its seven calendar fields and what [utcoffset()]
    returns, in microseconds: [None] for a naive datetime, the offset of its
    time zone for an aware one. *)
Record datetime := mk_datetime {
  year : Z; month : Z; day : Z;
  hour : Z; minute : Z; second : Z; microsecond : Z;
  utcoffset : option Z
}.

Definition dt_tuple (d : datetime) : list Z :=
  [year d; month d; day d; hour d; minute d; second d; microsecond d].

(** Comparison of two tuples of integers, as Python compares tuples. *)
Fixpoint cmp_tuple (a b : list Z) : comparison :=
  match a, b with
  | [], [] => Eq
  | [], _ :: _ => Lt
  | _ :: _, [] => Gt
  | x :: a', y :: b' =>
      match Z.compare x y with
      | Eq => cmp_tuple a' b'
      | c => c
      end
  end.

(** [date.toordinal]: the number of the day in the proleptic Gregorian
    calendar, from [_days_before_year] and [_days_before_month]. *)
Definition is_leap (y : Z) : bool :=
  (y mod 4 =? 0)%Z && (negb (y mod 100 =? 0)%Z || (y mod 400 =? 0)%Z).

Definition days_before_year (y : Z) : Z :=
  let y := (y - 1)%Z in
  (y * 365 + y / 4 - y / 100 + y / 400)%Z.

Definition days_before_month (y m : Z) : Z :=
  let table :=
    [-1; 0; 31; 59; 90; 120; 151; 181; 212; 243; 273; 304; 334]%Z in
  (default 0 (table !! Z.to_nat m) +
   (if (2 <? m)%Z && is_leap y then 1 else 0))%Z.

Definition toordinal (d : datetime) : Z :=
  (days_before_year (year d) + days_before_month (year d) (month d) + day d)%Z.

(** The instant of an aware datetime, whose offset is [offset], counted in
    microseconds; [a - b] on two aware datetimes is the difference of
    their instants. *)
Definition utc_microseconds (d : datetime) (offset : Z) : Z :=
  ((((toordinal d * 24 + hour d) * 60 + minute d) * 60 + second d) * 1000000
   + microsecond d - offset)%Z.

(** The order comparisons of two datetimes.  With the same offset, or with
    none on either side, the fields are compared; two aware datetimes with
    different offsets are compared by [a - b]; a naive and an aware one are
    not comparable: [TypeError], here [None]. *)
Definition dt_cmp (a b : datetime) : option comparison :=
  if decide (utcoffset a = utcoffset b)
  then Some (cmp_tuple (dt_tuple a) (dt_tuple b))
  else
    match utcoffset a, utcoffset b with
    | Some offset_a, Some offset_b =>
        Some (utc_microseconds a offset_a ?= utc_microseconds b offset_b)%Z
    | _, _ => None
    end.

(** [a > b] and [a <= b] on datetimes. *)
Definition dt_gt (a b : datetime) : option bool :=
  (λ c, match c with Gt => true | _ => false end) <$> dt_cmp a b.


(** The scalars a keyword argument or a spreadsheet cell can hold. *)
Inductive scalar :=
| SNone
| SBool (b : bool)
| SInt (n : Z)
| SFloat (x : float)
| SStr (s : string)
| SDatetime (d : datetime).

(** Python values passed to the models: scalars, lists and dicts with string
    keys (a [Contact] instance is passed as the dict of its fields). *)
#[local] Unset Elimination Schemes.
Inductive pyval :=
| PScalar (s : scalar)
| PList (l : list pyval)
| PDict (d : list (string * pyval)).
#[local] Set Elimination Schemes.

(** A key of a dict that need not be a string, as the label of a column
    of a sheet is: the header cell holds a text, a whole number or a
    date. *)
Inductive label :=
| LStr (s : string)
| LInt (n : Z)
| LDatetime (d : datetime).

#[global] Instance datetime_eq_dec : EqDecision datetime.
Proof. solve_decision. Defined.

#[global] Instance datetime_countable : Countable datetime.
Proof.
  apply (inj_countable'
           (λ d, (year d, month d, day d, hour d, minute d, second d,
                  microsecond d, utcoffset d))
           (λ t, let '(y, mo, d, h, mi, s, us, offset) := t in
                 mk_datetime y mo d h mi s us offset)).
  by intros [].
Defined.

#[global] Instance label_eq_dec : EqDecision label.
Proof. solve_decision. Defined.

#[global] Instance label_countable : Countable label.
Proof.
  apply (inj_countable'
           (λ l, match l with
                 | LStr s => inl s
                 | LInt n => inr (inl n)
                 | LDatetime d => inr (inr d)
                 end)
           (λ x, match x with
                 | inl s => LStr s
                 | inr (inl n) => LInt n
                 | inr (inr d) => LDatetime d
                 end)).
  by intros [].
Defined.

(** [dict(pairs)]: a later pair overrides an earlier one with the same key. *)
Definition dict_of_pairs {K V} `{Countable K} (pairs : list (K * V))
  : gmap K V :=
  foldl (λ m p, <[p.1 := p.2]> m) ∅ pairs.

(** [str(n)] for an int. *)
Definition str_of_int (n : Z) : string := NilZero.string_of_int (Z.to_int n).

Definition str_of_nat (n : nat) : string := NilZero.string_of_uint (Nat.to_uint n).

Definition str_of_bool (b : bool) : string := if b then "True" else "False".

(** [needle in hay] on strings. *)
Fixpoint str_contains (needle hay : string) : bool :=
  String.prefix needle hay ||
  match hay with
  | EmptyString => false
  | String _ rest => str_contains needle rest
  end.

(** [sep.join(parts)]. *)
Definition str_join (sep : string) (parts : list string) : string :=
  String.concat sep parts.

(** [sum(xs)] on floats: the additions [((0 + x1) + x2) + ...] in the order
    of the list, each rounded to binary64 (CPython up to 3.11; later
    versions carry a correction term along the same pass). *)
Definition py_sum (xs : list float) : float :=
  foldl PrimFloat.add 0%float xs.

(** The interpreter's conversions between values of different types, which
    the models reach through pydantic's coercions: [float(n)] on an int,
    [float(s)] and [str(x)]; for the dates, [EPOCH + timedelta(seconds=n)]
    for a number [n] that is no NaN and at most 3e20 in size, after the
    division by 1000 of a number of milliseconds, and the reading of a
    string as a date, which gives a naive or an aware datetime, as the
    string is written; and [dict(v)] on a value that is not a dict.  [None]
    stands for the conversion raising.  Then the texts of three
    [TypeError]s of the interpreter, which depend on its version and on the
    classes of the values: of the comparison of a naive with an aware
    datetime, of a call with a keyword that is no string, and of a call of
    a model with the keyword [__pydantic_self__]. *)
Record py_runtime := {
  py_float_of_int : Z → option float;
  py_float_of_str : string → option float;
  py_str_of_float : float → option string;
  py_epoch_plus : scalar → datetime;
  py_parse_datetime : string → option datetime;
  py_dict : pyval → option (list (string * pyval));
  py_mixed_datetimes_error : datetime → datetime → string;
  py_keywords_error : string;
  py_self_keyword_error : string
}.

(** A runtime in which no conversion from or to a string succeeds, and none
    of an int to a float; values that already have the type of their field
    need none.  [EPOCH + timedelta(seconds=0)] is the epoch, and the
    examples pass no other number as a date.  The texts are those of
    CPython. *)
Definition no_coercion : py_runtime := {|
  py_float_of_int := λ _, None;
  py_float_of_str := λ _, None;
  py_str_of_float := λ _, None;
  py_epoch_plus := λ _, mk_datetime 1970 1 1 0 0 0 0 (Some 0%Z);
  py_parse_datetime := λ _, None;
  py_dict := λ _, None;
  py_mixed_datetimes_error := λ _ _,
    "can't compare offset-naive and offset-aware datetimes";
  py_keywords_error := "keywords must be strings";
  py_self_keyword_error :=
    "__init__() got multiple values for argument '__pydantic_self__'"
|}.

(** ** Exceptions *)

(** One entry of a pydantic [ValidationError]: location, message, type. *)
Record error_item := mk_error {
  loc : list string;
  msg : string;
  etype : string
}.

Inductive exn :=
| FileNotFoundError (m : string)
| PermissionError (m : string)
| ValueError (m : string)
| ValidationError (model : string) (errors : list error_item)
| TypeError (m : string)
| AttributeError (m : string)
| PyException (m : string).

(** [isinstance(e, ValueError)]: pydantic's [ValidationError] derives from it. *)
Definition is_ValueError (e : exn) : bool :=
  match e with
  | ValueError _ | ValidationError _ _ => true
  | _ => false
  end.

Definition display_error (e : error_item) : string :=
  str_join " -> " (loc e) +:+ "
  " +:+ msg e +:+ " (type=" +:+ etype e +:+ ")".

(** [str(e)]. *)
Definition str_exn (e : exn) : string :=
  match e with
  | FileNotFoundError m | PermissionError m | ValueError m
  | TypeError m | AttributeError m | PyException m => m
  | ValidationError model errors =>
      str_of_nat (length errors) +:+ " validation error" +:+
      (if decide (length errors = 1) then "" else "s") +:+
      " for " +:+ model +:+ "
" +:+ str_join "
" (display_error <$> errors)
  end.

(** ** pydantic (version 1): field validation

    A model is built from keyword arguments.  Each declared field, in
    declaration order, is looked up among them: a missing required field is
    an error, a missing optional one takes its default without validation,
    a present one goes through the validator of its type and then through
    the validators the class declares for it.  Keyword arguments that name
    no declared field are ignored ([Config.extra] is [ignore] by default).
    Afterwards the root validators run, also when a field failed, on the
    values that passed.  All errors are reported together. *)

Inductive outcome (T : Type) :=
| Valid (v : T)
| Invalid (errs : list error_item).
Arguments Valid {T} v.
Arguments Invalid {T} errs.

Definition outcome_errors {T} (o : outcome T) : list error_item :=
  match o with Valid _ => [] | Invalid errs => errs end.

(** [values.get(name)] for a field holding an optional value: [None] when
    the field failed or holds [None]. *)
Definition outcome_get {T} (o : outcome (option T)) : option T :=
  match o with Valid v => v | Invalid _ => None end.

(** Apply a constructor to one more validated field; the errors of the
    fields add up in field order. *)
Definition outcome_ap {A B} (f : outcome (A → B)) (x : outcome A) : outcome B :=
  match f, x with
  | Valid g, Valid a => Valid (g a)
  | _, _ => Invalid (outcome_errors f ++ outcome_errors x)
  end.

Infix "<*>" := outcome_ap (at level 61, left associativity).

Definition missing_error (name : string) : error_item :=
  mk_error [name] "field required" "value_error.missing".

Definition none_error (name : string) : error_item :=
  mk_error [name] "none is not an allowed value" "type_error.none.not_allowed".

Definition str_error (name : string) : error_item :=
  mk_error [name] "str type expected" "type_error.str".

Definition float_error (name : string) : error_item :=
  mk_error [name] "value is not a valid float" "type_error.float".

Definition datetime_error (name : string) : error_item :=
  mk_error [name] "invalid datetime format" "value_error.datetime".

Definition datetime_type_error (name : string) : error_item :=
  mk_error [name] "invalid type; expected datetime, string, bytes, int or float"
    "type_error".

Definition dict_error (path : list string) : error_item :=
  mk_error path "value is not a valid dict" "type_error.dict".

Definition list_error (name : string) : error_item :=
  mk_error [name] "value is not a valid list" "type_error.list".

(** An error raised by a validator of the class: [ValueError(m)]. *)
Definition value_error (path : list string) (m : string) : error_item :=
  mk_error path m "value_error".

(** Put the errors of a sub-model under the location [path]. *)
Definition nest_error (path : list string) (e : error_item) : error_item :=
  mk_error (path ++ loc e) (msg e) (etype e).

(** [MAX_NUMBER] of pydantic's [datetime_parse], [int(3e20)], and
    [datetime.max] and [datetime.min]. *)
Definition MAX_NUMBER : Z := 300000000000000000000.

Definition datetime_max : datetime :=
  mk_datetime 9999 12 31 23 59 59 999999 None.

Definition datetime_min : datetime := mk_datetime 1 1 1 0 0 0 0 None.

Section Validators.
Context (R : py_runtime).

(** [str_validator]: a str is kept, an int or a float is passed to [str]. *)
Definition str_validator (v : pyval) : option string :=
  match v with
  | PScalar (SStr s) => Some s
  | PScalar (SInt n) => Some (str_of_int n)
  | PScalar (SBool b) => Some (str_of_bool b)
  | PScalar (SFloat x) => py_str_of_float R x
  | _ => None
  end.

(** [float_validator]: a float is kept, anything else is passed to [float]. *)
Definition float_validator (v : pyval) : option float :=
  match v with
  | PScalar (SFloat x) => Some x
  | PScalar (SInt n) => py_float_of_int R n
  | PScalar (SBool b) => Some (if b then 1%float else 0%float)
  | PScalar (SStr s) => py_float_of_str R s
  | _ => None
  end.

(** pydantic's [from_unix_seconds] on an int or a float: beyond
    [MAX_NUMBER] it is [datetime.max] or [datetime.min], which are naive;
    otherwise [EPOCH + timedelta(seconds=...)], which is aware, in UTC;
    [timedelta] raises a [ValueError] on NaN. *)
Definition from_unix_seconds (name : string) (seconds : scalar)
  : outcome datetime :=
  let in_utc d :=
    mk_datetime (year d) (month d) (day d) (hour d) (minute d) (second d)
      (microsecond d) (Some 0%Z) in
  let above :=
    match seconds with
    | SInt n => (MAX_NUMBER <? n)%Z
    | SFloat x => PrimFloat.ltb 3e20 x
    | _ => false
    end in
  let below :=
    match seconds with
    | SInt n => (n <? - MAX_NUMBER)%Z
    | SFloat x => PrimFloat.ltb x (-3e20)
    | _ => false
    end in
  let nan :=
    match seconds with
    | SFloat x => PrimFloat.is_nan x
    | _ => false
    end in
  if above then Valid datetime_max
  else if below then Valid datetime_min
  else if nan
  then Invalid [value_error [name] "cannot convert float NaN to integer"]
  else Valid (in_utc (py_epoch_plus R seconds)).

(** [parse_datetime]: a datetime is kept; a number (a bool is one), and a
    string that [float] reads, go through [from_unix_seconds]; any other
    string is read as a date; any other type is a [TypeError]. *)
Definition datetime_validator (name : string) (v : pyval)
  : outcome datetime :=
  match v with
  | PScalar (SDatetime d) => Valid d
  | PScalar (SInt n) => from_unix_seconds name (SInt n)
  | PScalar (SFloat x) => from_unix_seconds name (SFloat x)
  | PScalar (SBool b) => from_unix_seconds name (SInt (if b then 1 else 0))
  | PScalar (SStr s) =>
      match py_float_of_str R s with
      | Some x => from_unix_seconds name (SFloat x)
      | None =>
          match py_parse_datetime R s with
          | Some d => Valid d
          | None => Invalid [datetime_error name]
          end
      end
  | PScalar SNone | PList _ | PDict _ => Invalid [datetime_type_error name]
  end.

(** [dict_validator]: a dict is kept, anything else is passed to [dict]. *)
Definition dict_validator (v : pyval) : option (gmap string pyval) :=
  match v with
  | PDict d => Some (dict_of_pairs d)
  | _ => dict_of_pairs <$> py_dict R v
  end.

(** A field declared [T] with [Field(...)]: required, [None] not allowed. *)
Definition required_field {T} (name : string)
    (validate : pyval → outcome T) (arg : option pyval) : outcome T :=
  match arg with
  | None => Invalid [missing_error name]
  | Some (PScalar SNone) => Invalid [none_error name]
  | Some v => validate v
  end.

(** A field declared [Optional[T]]: when missing it takes [default]
    unvalidated; [None] is allowed and, like a validated value, is handed
    to the validators of the class ([post]). *)
Definition optional_field {T} (default : option T)
    (validate : pyval → outcome T) (post : option T → outcome (option T))
    (arg : option pyval) : outcome (option T) :=
  match arg with
  | None => Valid default
  | Some (PScalar SNone) => post None
  | Some v =>
      match validate v with
      | Valid t => post (Some t)
      | Invalid errs => Invalid errs
      end
  end.

(** A field declared [T] with a default: missing takes the default,
    [None] is not allowed. *)
Definition defaulted_field {T} (name : string) (default : T)
    (validate : pyval → outcome T) (arg : option pyval) : outcome T :=
  match arg with
  | None => Valid default
  | Some (PScalar SNone) => Invalid [none_error name]
  | Some v => validate v
  end.

Definition of_option {T} (err : error_item) (o : option T) : outcome T :=
  match o with Some t => Valid t | None => Invalid [err] end.

Definition validate_str (name : string) (v : pyval) : outcome string :=
  of_option (str_error name) (str_validator v).

Definition validate_float (name : string) (v : pyval) : outcome float :=
  of_option (float_error name) (float_validator v).

Definition no_post {T} (v : option T) : outcome (option T) := Valid v.
End Validators.

(** ** models/data_models.py *)

Inductive ProbabilityStatus := LOW | MEDIUM | HIGH | CLOSED_WON | CLOSED_LOST.

Definition status_value (s : ProbabilityStatus) : string :=
  match s with
  | LOW => "Low"
  | MEDIUM => "Medium"
  | HIGH => "High"
  | CLOSED_WON => "Closed Won"
  | CLOSED_LOST => "Closed Lost"
  end.

Definition all_statuses : list ProbabilityStatus :=
  [LOW; MEDIUM; HIGH; CLOSED_WON; CLOSED_LOST].

(** [ProbabilityStatus(v)]: the member whose value equals [v]. *)
Definition status_of_value (v : pyval) : option ProbabilityStatus :=
  match v with
  | PScalar (SStr s) =>
      list_find (λ m, status_value m = s) all_statuses ≫= λ p, Some p.2
  | _ => None
  end.

Definition enum_error (name : string) : error_item :=
  mk_error [name]
    "value is not a valid enumeration member; permitted: 'Low', 'Medium', 'High', 'Closed Won', 'Closed Lost'"
    "type_error.enum; enum_values=[<ProbabilityStatus.LOW: 'Low'>, <ProbabilityStatus.MEDIUM: 'Medium'>, <ProbabilityStatus.HIGH: 'High'>, <ProbabilityStatus.CLOSED_WON: 'Closed Won'>, <ProbabilityStatus.CLOSED_LOST: 'Closed Lost'>]".

Record Contact := mk_Contact {
  name : string;
  email : option string;
  phone : option string
}.

Record FunnelEntry := mk_FunnelEntry {
  id : option string;
  company_name : string;
  project_name : string;
  value : float;
  probability : option float;
  status : option ProbabilityStatus;
  start_date : option datetime;
  expected_close_date : option datetime;
  contacts : option (list Contact);
  notes : option string;
  last_updated : option datetime;
  custom_fields : gmap string pyval
}.

Record FunnelData := mk_FunnelData {
  entries : list FunnelEntry;
  extraction_date : datetime;
  source_file : string;
  sheet_name : option string;
  total_value : option float
}.

(** The names [FunnelEntry] declares. *)
Definition FunnelEntry_fields : list string :=
  ["id"; "company_name"; "project_name"; "value"; "probability"; "status";
   "start_date"; "expected_close_date"; "contacts"; "notes"; "last_updated";
   "custom_fields"].

(** [Contact.validate_email]:
    [if v is not None and "@" not in v: raise ValueError("Invalid email format")]. *)
Definition validate_email (v : option string) : outcome (option string) :=
  match v with
  | Some s =>
      if negb (str_contains "@" s)
      then Invalid [value_error ["email"] "Invalid email format"]
      else Valid v
  | None => Valid v
  end.

(** [FunnelEntry.validate_probability]:
    [if v is not None and (v < 0 or v > 100): raise ValueError(...)]. *)
Definition validate_probability (v : option float) : outcome (option float) :=
  match v with
  | Some x =>
      if PrimFloat.ltb x 0%float || PrimFloat.ltb 100%float x
      then Invalid [value_error ["probability"]
                      "Probability must be between 0 and 100"]
      else Valid v
  | None => Valid v
  end.

(** An error raised by a root validator as a [TypeError] with the text
    [m]. *)
Definition root_type_error (m : string) : error_item :=
  mk_error ["__root__"] m "type_error".

(** [FunnelEntry.check_dates], a root validator, on [values.get("start_date")]
    and [values.get("expected_close_date")]:
    [if start_date and close_date and start_date > close_date: raise ...]
    (a datetime is always true).  The comparison of a naive with an aware
    datetime raises a [TypeError], which pydantic reports as it does the
    [ValueError] of the validator. *)
Definition check_dates (R : py_runtime)
    (start_date close_date : option datetime) : list error_item :=
  match start_date, close_date with
  | Some s, Some c =>
      match dt_gt s c with
      | Some true =>
          [value_error ["__root__"]
             "Start date must be before expected close date"]
      | Some false => []
      | None => [root_type_error (py_mixed_datetimes_error R s c)]
      end
  | _, _ => []
  end.

(** [FunnelData.calculate_total_value], a root validator, on
    [values.get("entries", [])] and the [total_value] that was passed:
    [if entries: values["total_value"] = sum(entry.value for entry in entries)]. *)
Definition calculate_total_value (entries : list FunnelEntry)
    (total_value : option float) : option float :=
  match entries with
  | [] => total_value
  | _ :: _ => Some (py_sum (value <$> entries))
  end.

Section Models.
Context (R : py_runtime).

(** [Contact] built from keyword arguments. *)
Definition Contact_new (kwargs : gmap string pyval)
  : list error_item + Contact :=
  let o_name := required_field "name" (validate_str R "name") (kwargs !! "name") in
  let o_email :=
    optional_field None (validate_str R "email") validate_email
      (kwargs !! "email") in
  let o_phone :=
    optional_field None (validate_str R "phone") no_post (kwargs !! "phone") in
  match Valid mk_Contact <*> o_name <*> o_email <*> o_phone with
  | Valid c => inr c
  | Invalid errs => inl errs
  end.

(** One item of [contacts], at index [i]: a dict (or what [dict] makes a
    dict of) is validated as a [Contact]. *)
Definition validate_contact (i : nat) (v : pyval) : outcome Contact :=
  let path := ["contacts"; str_of_nat i] in
  match dict_validator R v with
  | None => Invalid [dict_error path]
  | Some kwargs =>
      match Contact_new kwargs with
      | inr c => Valid c
      | inl errs => Invalid (nest_error path <$> errs)
      end
  end.

(** [List[Contact]]: every item is validated, the errors of all items are
    reported. *)
Definition validate_contacts (v : pyval) : outcome (list Contact) :=
  match v with
  | PList items =>
      let results := imap validate_contact items in
      match mapM (λ o, match o with Valid c => Some c | Invalid _ => None end)
              results with
      | Some cs => Valid cs
      | None => Invalid (results ≫= outcome_errors)
      end
  | _ => Invalid [list_error "contacts"]
  end.

Definition validate_status (v : pyval) : outcome ProbabilityStatus :=
  of_option (enum_error "status") (status_of_value v).

Definition validate_dict (name : string) (v : pyval)
  : outcome (gmap string pyval) :=
  of_option (dict_error [name]) (dict_validator R v).

(** [FunnelEntry.__init__] on the keyword arguments it has received: the
    fields in declaration order, then [check_dates]; a [ValidationError]
    with all the errors when there is one. *)
Definition FunnelEntry_new (kwargs : gmap string pyval) : exn + FunnelEntry :=
  let o_id :=
    optional_field None (validate_str R "id") no_post (kwargs !! "id") in
  let o_company :=
    required_field "company_name" (validate_str R "company_name")
      (kwargs !! "company_name") in
  let o_project :=
    required_field "project_name" (validate_str R "project_name")
      (kwargs !! "project_name") in
  let o_value :=
    required_field "value" (validate_float R "value") (kwargs !! "value") in
  let o_probability :=
    optional_field None (validate_float R "probability") validate_probability
      (kwargs !! "probability") in
  let o_status :=
    optional_field None validate_status no_post (kwargs !! "status") in
  let o_start :=
    optional_field None (datetime_validator R "start_date") no_post
      (kwargs !! "start_date") in
  let o_close :=
    optional_field None (datetime_validator R "expected_close_date") no_post
      (kwargs !! "expected_close_date") in
  let o_contacts :=
    optional_field (Some []) validate_contacts no_post
      (kwargs !! "contacts") in
  let o_notes :=
    optional_field None (validate_str R "notes") no_post (kwargs !! "notes") in
  let o_updated :=
    optional_field None (datetime_validator R "last_updated") no_post
      (kwargs !! "last_updated") in
  let o_custom :=
    defaulted_field "custom_fields" ∅ (validate_dict "custom_fields")
      (kwargs !! "custom_fields") in
  let root_errors :=
    check_dates R (outcome_get o_start) (outcome_get o_close) in
  let fields :=
    Valid mk_FunnelEntry <*> o_id <*> o_company <*> o_project <*> o_value
      <*> o_probability <*> o_status <*> o_start <*> o_close
      <*> o_contacts <*> o_notes <*> o_updated <*> o_custom in
  match fields, root_errors with
  | Valid entry, [] => inr entry
  | _, _ =>
      inl (ValidationError "FunnelEntry"
             (outcome_errors fields ++ root_errors))
  end.

(** [FunnelData(entries=..., extraction_date=..., source_file=...,
    sheet_name=..., total_value=...)] on values that already have the types
    of their fields, as every caller passes them: field validation keeps
    them, then [calculate_total_value] runs.  Nothing rejects an empty
    list of entries. *)
Definition FunnelData_new (entries : list FunnelEntry)
    (extraction_date : datetime) (source_file : string)
    (sheet_name : option string) (total_value : option float)
  : exn + FunnelData :=
  inr (mk_FunnelData entries extraction_date source_file sheet_name
         (calculate_total_value entries total_value)).

(** The keyword arguments that a call passes which unpacks the dict
    [kwargs], when every key of [kwargs] is a string. *)
Definition keyword_arguments {V} (kwargs : gmap label V) : gmap string V :=
  map_fold (λ k v data,
              match k with
              | LStr s => <[s := v]> data
              | _ => data
              end) ∅ kwargs.

Definition is_str (k : label) : bool :=
  match k with LStr _ => true | _ => false end.

(** The call of [FunnelEntry] that unpacks a dict as its keyword arguments,
    as the extraction does with a cleaned record.  The interpreter refuses a
    key that is no string; [__init__], whose first parameter is named
    [__pydantic_self__], cannot take a keyword of that name; otherwise the
    keyword arguments reach [__init__]. *)
Definition FunnelEntry_call (kwargs : gmap label pyval) : exn + FunnelEntry :=
  if bool_decide (map_Forall (λ k _, is_str k) kwargs)
  then
    match kwargs !! LStr "__pydantic_self__" with
    | Some _ => inl (TypeError (py_self_keyword_error R))
    | None => FunnelEntry_new (keyword_arguments kwargs)
    end
  else inl (TypeError (py_keywords_error R)).
End Models.

(** ** pandas: the part of [DataFrame] the extraction uses *)

(** A cell of a frame: a Python scalar, or [NaT] in a column of dates. *)
Inductive cell :=
| CNaT
| CVal (s : scalar).

(** A frame: its column labels and, per row, one cell per column. *)
Record DataFrame := mk_DataFrame {
  columns : list label;
  rows : list (list cell)
}.

(** [pd.notna(v)]: false on [None], NaN and [NaT]. *)
Definition pd_notna (c : cell) : bool :=
  match c with
  | CNaT => false
  | CVal SNone => false
  | CVal (SFloat x) => negb (PrimFloat.is_nan x)
  | CVal _ => true
  end.

(** [df.rename(columns=d)] for a dict [d] of strings: a label that is a key
    of [d] is replaced by what [d] binds it to, every other label and all
    the data stay. *)
Definition rename_label (d : gmap string string) (c : label) : label :=
  match c with
  | LStr s =>
      match d !! s with
      | Some target => LStr target
      | None => c
      end
  | _ => c
  end.

Definition df_rename (d : gmap string string) (df : DataFrame) : DataFrame :=
  mk_DataFrame (rename_label d <$> columns df) (rows df).

(** [df.to_dict(orient="records")]: per row, [dict(zip(columns, row))]. *)
Definition to_dict_records (df : DataFrame) : list (gmap label cell) :=
  (λ row, dict_of_pairs (zip (columns df) row)) <$> rows df.

(** ** core/extraction.py *)

(** What the extractor reaches outside the process: [os.path.exists],
    [os.path.isdir], [glob.glob(os.path.join(folder, pattern))] and the
    workbook as pandas reads it, one sheet by its name or all its sheets. *)
Record environment := {
  path_exists : string → bool;
  path_isdir : string → bool;
  glob : string → string → list string;
  read_sheet : string → string → exn + DataFrame;
  read_sheets : string → exn + list (string * DataFrame)
}.

(** What [pd.read_excel] returns: a frame, or a dict of frames by the names
    of the sheets. *)
Inductive excel_data :=
| OneSheet (df : DataFrame)
| AllSheets (sheets : list (string * DataFrame)).

(** [pd.read_excel(path, sheet_name=sheet_name)]: the frame of the sheet of
    that name, and for [None] the dict of all sheets. *)
Definition read_excel (env : environment) (path : string)
    (sheet_name : option string) : exn + excel_data :=
  match sheet_name with
  | Some name =>
      match read_sheet env path name with
      | inr df => inr (OneSheet df)
      | inl e => inl e
      end
  | None =>
      match read_sheets env path with
      | inr sheets => inr (AllSheets sheets)
      | inl e => inl e
      end
  end.

(** The mapping used when the caller passes none. *)
Definition default_mapping : gmap string string :=
  dict_of_pairs
    [("Company", "company_name");
     ("Project", "project_name");
     ("Value", "value");
     ("Probability (%)", "probability");
     ("Status", "status");
     ("Start Date", "start_date");
     ("Expected Close", "expected_close_date");
     ("Notes", "notes");
     ("Last Updated", "last_updated")].

(** [ExcelExtractor.extract_data]: what is read is returned after its
    [shape] has been logged, which a dict of frames does not have. *)
Definition extract_data (env : environment) (file_path : string)
    (sheet_name : option string) : exn + DataFrame :=
  let body :=
    if negb (path_exists env file_path)
    then inl (FileNotFoundError ("Excel file not found: " +:+ file_path))
    else
      match read_excel env file_path sheet_name with
      | inl e => inl e
      | inr (OneSheet df) => inr df
      | inr (AllSheets _) =>
          inl (AttributeError "'dict' object has no attribute 'shape'")
      end in
  match body with
  | inr df => inr df
  | inl (FileNotFoundError _) =>
      inl (FileNotFoundError
             ("Excel file not found: " +:+ file_path +:+
              ". Make sure the path is correct."))
  | inl (PermissionError _) =>
      inl (PermissionError
             ("Cannot access " +:+ file_path +:+
              ". Please check your VPN connection and try again."))
  | inl e =>
      inl (PyException
             ("Error extracting data from Excel file: " +:+ str_exn e))
  end.

(** [{k: v for k, v in record.items() if pd.notna(v)}]. *)
Definition cleaned_record (record : gmap label cell) : gmap label pyval :=
  omap (λ c, match c with
             | CVal s => if pd_notna c then Some (PScalar s) else None
             | CNaT => None
             end) record.

(** The column-mapping step of [extract_validated_data]:
    [df_mapped = df.rename(columns={k: v for k, v in mapping.items()
                                    if k in df.columns})]
    and [records = df_mapped.to_dict(orient="records")]. *)
Definition mapped_records (mapping : gmap string string) (df : DataFrame)
  : list (gmap label cell) :=
  let df_mapped :=
    df_rename (filter (λ kv, LStr kv.1 ∈ columns df) mapping) df in
  to_dict_records df_mapped.

(** [f"Row {i + 2}: {str(e)}"]. *)
Definition row_error (i : nat) (e : exn) : string :=
  "Row " +:+ str_of_nat (i + 2) +:+ ": " +:+ str_exn e.

Section Pipeline.
Context (R : py_runtime).

(** The loop [for i, record in enumerate(records)] of
    [extract_validated_data], from index [i] on, with the two lists it
    appends to: an entry for a record that validates, a message for one
    that raises. *)
Fixpoint validate_records (i : nat) (records : list (gmap label cell))
    (entries : list FunnelEntry) (validation_errors : list string)
  : list FunnelEntry * list string :=
  match records with
  | [] => (entries, validation_errors)
  | record :: rest =>
      match FunnelEntry_call R (cleaned_record record) with
      | inr entry =>
          validate_records (S i) rest (entries ++ [entry]) validation_errors
      | inl e =>
          validate_records (S i) rest entries
            (validation_errors ++ [row_error i e])
      end
  end.

(** The batch as the specification counts it: the entries of the records
    that validate, and the failures of those that do not, each with the
    index of its record (counted from [i]). *)
Definition valid_rows (records : list (gmap label cell)) : list FunnelEntry :=
  omap (λ record,
          match FunnelEntry_call R (cleaned_record record) with
          | inr entry => Some entry
          | inl _ => None
          end) records.

Definition row_failures_from (i : nat) (records : list (gmap label cell))
  : list (nat * exn) :=
  omap (λ p : nat * gmap label cell,
          match FunnelEntry_call R (cleaned_record p.2) with
          | inl e => Some (p.1, e)
          | inr _ => None
          end) (zip (seq i (length records)) records).

Definition row_failures (records : list (gmap label cell))
  : list (nat * exn) :=
  row_failures_from 0 records.

(** [ExcelExtractor.extract_validated_data]; [now] is [datetime.now()]. *)
Definition extract_validated_data (env : environment) (now : datetime)
    (file_path : string) (sheet_name : option string)
    (mapping : option (gmap string string)) : exn + FunnelData :=
  let body :=
    let mapping := default default_mapping mapping in
    match extract_data env file_path sheet_name with
    | inl e => inl e
    | inr df =>
        let records := mapped_records mapping df in
        let '(entries, validation_errors) :=
          validate_records 0 records [] [] in
        match validation_errors with
        | _ :: _ =>
            inl (ValueError
                   ("Data validation errors: " +:+
                    str_join "; " validation_errors))
        | [] => FunnelData_new entries now file_path sheet_name None
        end
    end in
  match body with
  | inr data => inr data
  | inl e =>
      if is_ValueError e &&
         str_contains "Data validation errors" (str_exn e)
      then inl e
      else inl (PyException
                  ("Error extracting and validating data: " +:+ str_exn e))
  end.
End Pipeline.

(** [ExcelExtractor.scan_folder_for_excel_files]. *)
Definition scan_folder_for_excel_files (env : environment)
    (folder_path pattern : string) : exn + list string :=
  let body :=
    if negb (path_exists env folder_path)
    then inl (FileNotFoundError ("Folder not found: " +:+ folder_path))
    else if negb (path_isdir env folder_path)
    then inl (ValueError ("Not a directory: " +:+ folder_path))
    else inr (glob env folder_path pattern) in
  match body with
  | inr file_paths => inr file_paths
  | inl (FileNotFoundError _) =>
      inl (FileNotFoundError
             ("Folder not found: " +:+ folder_path +:+
              ". Make sure the path is correct."))
  | inl (PermissionError _) =>
      inl (PermissionError
             ("Cannot access " +:+ folder_path +:+
              ". Please check your VPN connection and permissions."))
  | inl e =>
      inl (PyException
             ("Error scanning folder for Excel files: " +:+ str_exn e))
  end.

(** ** The data of the tests ([tests/conftest.py], [tests/test_extraction.py]) *)

(** [datetime(y, m, d)]. *)
Definition date (y m d : Z) : datetime := mk_datetime y m d 0 0 0 0 None.

Definition funnel_columns : list label :=
  LStr <$>
    ["Company"; "Project"; "Value"; "Probability (%)"; "Status"; "Start Date";
     "Expected Close"; "Notes"; "Last Updated"].

Definition funnel_row (company project : string) (value probability : float)
    (status : string) (start close : datetime) (notes : string)
    (updated : datetime) : list cell :=
  [CVal (SStr company); CVal (SStr project); CVal (SFloat value);
   CVal (SFloat probability); CVal (SStr status); CVal (SDatetime start);
   CVal (SDatetime close); CVal (SStr notes); CVal (SDatetime updated)].

(** [mock_excel_data["Sheet1"]]. *)
Definition mock_excel_data : DataFrame :=
  mk_DataFrame funnel_columns
    [funnel_row "ABC Corp" "Website Redesign" 50000 80 "High"
       (date 2025 1 1) (date 2025 3 31) "Redesign of corporate website"
       (date 2025 1 15);
     funnel_row "XYZ Ltd" "Mobile App" 75000 50 "Medium"
       (date 2025 2 1) (date 2025 6 30) "Mobile app development"
       (date 2025 2 15);
     funnel_row "123 Inc" "Data Migration" 100000 30 "Low"
       (date 2025 3 1) (date 2025 9 30) "Data migration project"
       (date 2025 3 15)].

(** The same sheet with a probability of 120 in its second row. *)
Definition sheet_with_bad_probability : DataFrame :=
  mk_DataFrame funnel_columns
    [funnel_row "ABC Corp" "Website Redesign" 50000 80 "High"
       (date 2025 1 1) (date 2025 3 31) "Redesign of corporate website"
       (date 2025 1 15);
     funnel_row "XYZ Ltd" "Mobile App" 75000 120 "Medium"
       (date 2025 2 1) (date 2025 6 30) "Mobile app development"
       (date 2025 2 15);
     funnel_row "123 Inc" "Data Migration" 100000 30 "Low"
       (date 2025 3 1) (date 2025 9 30) "Data migration project"
       (date 2025 3 15)].

(** A sheet with the header row and no data row. *)
Definition empty_sheet : DataFrame := mk_DataFrame funnel_columns [].

(** An environment in which the workbook exists and reads as [df]. *)
Definition workbook (df : DataFrame) : environment := {|
  path_exists := λ _, true;
  path_isdir := λ _, false;
  glob := λ _ _, [];
  read_sheet := λ _ _, inr df;
  read_sheets := λ _, inr [("Sheet1", df)]
|}.

(** An environment whose only path is the file [report.xlsx]. *)
Definition single_file : environment := {|
  path_exists := λ path, String.eqb path "report.xlsx";
  path_isdir := λ _, false;
  glob := λ _ _, [];
  read_sheet := λ _ _, inl (FileNotFoundError "");
  read_sheets := λ _, inl (FileNotFoundError "")
|}.

(** The mapping of [test_custom_mapping]. *)
Definition custom_mapping : gmap string string :=
  dict_of_pairs
    [("Company", "company_name");
     ("Project", "project_name");
     ("Value", "value");
     ("Probability (%)", "custom_fields.probability_pct");
     ("Status", "custom_fields.status_text")].

(** The least keyword arguments of an entry. *)
Definition minimal_kwargs : gmap string pyval :=
  dict_of_pairs
    [("company_name", PScalar (SStr "XYZ Ltd"));
     ("project_name", PScalar (SStr "Mobile App"));
     ("value", PScalar (SFloat 75000))].

(** ** models/data_models.py: the metadata models *)

Record ExcelSheetMetadata := mk_ExcelSheetMetadata {
  sm_sheet_name : string;
  sm_row_count : Z;
  sm_column_count : Z;
  sm_column_headers : list string
}.

Record ExcelFileMetadata := mk_ExcelFileMetadata {
  fm_file_path : string;
  fm_file_size : option Z;
  fm_last_modified : option datetime;
  fm_sheets : list ExcelSheetMetadata
}.

(** How a call ends that does not return: with an exception of one of the
    classes of [exn], or with one of another class, of which the callers use
    the text [str(e)] only. *)
Inductive failure :=
| Raised (e : exn)
| Failed (text : string).

(** [str_validator] on a label: a text is kept, a number is passed to
    [str], a date is no string. *)
Definition header_text (l : label) : option string :=
  match l with
  | LStr s => Some s
  | LInt n => Some (str_of_int n)
  | LDatetime _ => None
  end.

(** The errors of [column_headers]: one for each item that is no string,
    at its index. *)
Definition header_errors (column_headers : list label) : list error_item :=
  mjoin (imap (λ i l,
                 match header_text l with
                 | Some _ => []
                 | None =>
                     [mk_error ["column_headers"; str_of_nat i]
                        "str type expected" "type_error.str"]
                 end) column_headers).

Section Metadata.
(** The text of the exception that leaves [ExcelSheetMetadata] for a row
    count and a column count of which one is not positive:
    [validate_counts] looks up the name of the field before it raises its
    [ValueError], and which exception pydantic then lets through is not
    needed here. *)
Context (count_failure : Z → Z → string).

(** [ExcelSheetMetadata.validate_counts] on one count: [if v <= 0: ...
    raise], else [return v]. *)
Definition validate_counts (v : Z) : option Z :=
  if (v <=? 0)%Z then None else Some v.

(** [ExcelSheetMetadata(sheet_name=..., row_count=..., column_count=...,
    column_headers=...)] on a string, two ints and a list of labels: the
    counts are validated before the headers, and their exception leaves at
    once. *)
Definition ExcelSheetMetadata_new (sheet_name : string)
    (row_count column_count : Z) (column_headers : list label)
  : failure + ExcelSheetMetadata :=
  match validate_counts row_count, validate_counts column_count with
  | Some rows, Some cols =>
      match mapM header_text column_headers with
      | Some headers =>
          inr (mk_ExcelSheetMetadata sheet_name rows cols headers)
      | None =>
          inl (Raised (ValidationError "ExcelSheetMetadata"
                         (header_errors column_headers)))
      end
  | _, _ => inl (Failed (count_failure row_count column_count))
  end.

(** [ExcelFileMetadata(file_path=..., file_size=..., last_modified=...,
    sheets=...)]: no validator. *)
Definition ExcelFileMetadata_new (file_path : string) (file_size : option Z)
    (last_modified : option datetime) (sheets : list ExcelSheetMetadata)
  : ExcelFileMetadata :=
  mk_ExcelFileMetadata file_path file_size last_modified sheets.
End Metadata.

(** ** core/extraction.py: sheet names and metadata *)

(** What these two methods reach besides [environment]: [os.stat(path)] as
    the pair of [datetime.fromtimestamp(st_mtime)] and [st_size],
    [pd.ExcelFile(path).sheet_names], and
    [pd.read_excel(path, sheet_name=name, nrows=0)]. *)
Record workbook_files := {
  stat : string → exn + (datetime * Z);
  excel_sheet_names : string → exn + list string;
  read_header : string → string → exn + DataFrame
}.

(** [ExcelExtractor.get_sheet_names]. *)
Definition get_sheet_names (files : workbook_files) (file_path : string)
  : exn + list string :=
  match excel_sheet_names files file_path with
  | inr sheet_names => inr sheet_names
  | inl (FileNotFoundError _) =>
      inl (FileNotFoundError
             ("Excel file not found: " +:+ file_path +:+
              ". Make sure the path is correct."))
  | inl (PermissionError _) =>
      inl (PermissionError
             ("Cannot access " +:+ file_path +:+
              ". Please check your VPN connection and try again."))
  | inl e => inl (PyException ("Error reading Excel file: " +:+ str_exn e))
  end.

Section FileMetadata.
Context (count_failure : Z → Z → string).

(** The loop [for sheet_name in excel_file.sheet_names] of
    [get_file_metadata]: the header read, the full read, the metadata of the
    sheet; the first exception ends it. *)
Fixpoint sheet_metadata_list (env : environment) (files : workbook_files)
    (file_path : string) (sheet_names : list string)
  : failure + list ExcelSheetMetadata :=
  match sheet_names with
  | [] => inr []
  | sheet_name :: rest =>
      match read_header files file_path sheet_name with
      | inl e => inl (Raised e)
      | inr df_header =>
          let column_headers := columns df_header in
          match read_sheet env file_path sheet_name with
          | inl e => inl (Raised e)
          | inr df =>
              let row_count := Z.of_nat (length (rows df)) in
              let column_count := Z.of_nat (length (columns df)) in
              match ExcelSheetMetadata_new count_failure sheet_name
                      row_count column_count column_headers with
              | inl f => inl f
              | inr sheet_metadata =>
                  match sheet_metadata_list env files file_path rest with
                  | inl f => inl f
                  | inr others => inr (sheet_metadata :: others)
                  end
              end
          end
      end
  end.

(** [ExcelExtractor.get_file_metadata]. *)
Definition get_file_metadata (env : environment) (files : workbook_files)
    (file_path : string) : exn + ExcelFileMetadata :=
  let body :=
    if negb (path_exists env file_path)
    then inl (Raised (FileNotFoundError
                        ("Excel file not found: " +:+ file_path)))
    else
      match stat files file_path with
      | inl e => inl (Raised e)
      | inr (last_modified, file_size) =>
          match excel_sheet_names files file_path with
          | inl e => inl (Raised e)
          | inr sheet_names =>
              match sheet_metadata_list env files file_path sheet_names with
              | inl f => inl f
              | inr sheet_metadata_list =>
                  inr (ExcelFileMetadata_new file_path (Some file_size)
                         (Some last_modified) sheet_metadata_list)
              end
          end
      end in
  match body with
  | inr metadata => inr metadata
  | inl (Raised (FileNotFoundError _)) =>
      inl (FileNotFoundError
             ("Excel file not found: " +:+ file_path +:+
              ". Make sure the path is correct."))
  | inl (Raised (PermissionError _)) =>
      inl (PermissionError
             ("Cannot access " +:+ file_path +:+
              ". Please check your VPN connection and try again."))
  | inl (Raised e) =>
      inl (PyException ("Error getting file metadata: " +:+ str_exn e))
  | inl (Failed text) =>
      inl (PyException ("Error getting file metadata: " +:+ text))
  end.
End FileMetadata.

(** ** utils/logging_utils.py *)

(** [d[k] = v] on a dict kept in insertion order: a key that is there keeps
    its place and takes the new value, a new key goes last. *)
Fixpoint dict_set {V} (d : list (string * V)) (k : string) (v : V)
  : list (string * V) :=
  match d with
  | [] => [(k, v)]
  | (k', v') :: d' =>
      if decide (k' = k) then (k, v) :: d' else (k', v') :: dict_set d' k v
  end.

(** [d.update(other)]. *)
Definition dict_update {V} (d other : list (string * V)) : list (string * V) :=
  foldl (λ d p, dict_set d p.1 p.2) d other.

(** [d.get(k)]. *)
Fixpoint dict_get {V} (d : list (string * V)) (k : string) : option V :=
  match d with
  | [] => None
  | (k', v) :: d' => if decide (k' = k) then Some v else dict_get d' k
  end.

(** [ContextLogger.add_context]: [self.context.update(kwargs)]; the context
    holds its values by their text. *)
Definition add_context (context kwargs : list (string * string))
  : list (string * string) :=
  dict_update context kwargs.

(** [ContextLogger._format_message]. *)
Definition format_message (context : list (string * string)) (msg : string)
  : string :=
  match context with
  | [] => msg
  | _ :: _ =>
      let context_str :=
        str_join " | " ((λ p, p.1 +:+ "=" +:+ p.2) <$> context) in
      msg +:+ " [Context: " +:+ context_str +:+ "]"
  end.

(** The context of the logger of an [ExcelExtractor]: [__init__] creates it
    with the path; every method adds to it before anything else can raise. *)
Definition ExcelExtractor_init (file_path : string) : list (string * string) :=
  add_context [] [("file_path", file_path)].

Inductive extractor_call :=
| call_extract_data (sheet_name : option string)
| call_get_sheet_names
| call_get_file_metadata
| call_extract_validated_data (sheet_name : option string)
| call_scan_folder_for_excel_files (folder_path pattern : string).

(** [{"sheet_name": sheet_name} if sheet_name else {}]: an empty name is
    false. *)
Definition sheet_context (sheet_name : option string)
  : list (string * string) :=
  match sheet_name with
  | Some name => if decide (name = "") then [] else [("sheet_name", name)]
  | None => []
  end.

(** The context after a call of a method, from the context before it. *)
Definition context_after (context : list (string * string))
    (call : extractor_call) : list (string * string) :=
  match call with
  | call_extract_data sheet_name => add_context context (sheet_context sheet_name)
  | call_get_sheet_names | call_get_file_metadata => context
  | call_extract_validated_data sheet_name =>
      add_context (add_context context (sheet_context sheet_name))
        (sheet_context sheet_name)
  | call_scan_folder_for_excel_files folder_path pattern =>
      add_context context [("folder_path", folder_path); ("pattern", pattern)]
  end.

(** ** More data of the tests *)

(** The folder of [conftest.temp_excel_files]: three workbooks and a text
    file. *)
Definition temp_excel_files : environment := {|
  path_exists := λ path, String.eqb path "test_data";
  path_isdir := λ path, String.eqb path "test_data";
  glob := λ folder pattern,
    if String.eqb folder "test_data" && String.eqb pattern "*.xlsx"
    then ["test_data/sample_funnel_0.xlsx"; "test_data/sample_funnel_1.xlsx";
          "test_data/sample_funnel_2.xlsx"]
    else [];
  read_sheet := λ _ _, inr mock_excel_data;
  read_sheets := λ _, inr [("Sheet1", mock_excel_data)]
|}.

(** A workbook given by its sheets, as [conftest.temp_excel_file] writes
    one: a sheet is read by its name. *)
Definition sheet_of (sheets : list (string * DataFrame))
    (sheet_name : string) : exn + DataFrame :=
  match dict_get sheets sheet_name with
  | Some df => inr df
  | None => inl (ValueError ("Worksheet named '" +:+ sheet_name +:+ "' not found"))
  end.

Definition temp_excel_file (sheets : list (string * DataFrame))
  : environment := {|
  path_exists := λ _, true;
  path_isdir := λ _, false;
  glob := λ _ _, [];
  read_sheet := λ _ name, sheet_of sheets name;
  read_sheets := λ _, inr sheets
|}.

Definition temp_excel_file_stat (sheets : list (string * DataFrame))
  : workbook_files := {|
  stat := λ _, inr (date 2025 4 16, 5632%Z);
  excel_sheet_names := λ _, inr sheets.*1;
  read_header := λ _ name,
    match sheet_of sheets name with
    | inr df => inr (mk_DataFrame (columns df) [])
    | inl e => inl e
    end
|}.

(** A text for the exception of [ExcelSheetMetadata]. *)
Definition count_text (row_count column_count : Z) : string :=
  "invalid count".

(** * Properties *)

(** ** Floats: order comparisons *)

Lemma SFcompare_antisym (x y : spec_float) :
  SFcompare y x = CompOpp <$> SFcompare x y.
Proof.
  destruct x as [sx|sx| |sx mx ex], y as [sy|sy| |sy my ey]; simpl;
    try reflexivity;
    try (destruct sx; try destruct sy; reflexivity);
    try (destruct sy; reflexivity).
  destruct sx, sy; simpl; try reflexivity;
    rewrite (Z.compare_antisym ex ey); destruct (ex ?= ey)%Z; simpl;
    try reflexivity;
    change Eq with (CompOpp Eq) at 1;
    rewrite <- (Pos.compare_cont_antisym mx my Eq);
    try rewrite CompOpp_involutive; reflexivity.
Qed.

Lemma is_nan_false_compare (x : float) :
  PrimFloat.is_nan x = false → Prim2SF x ≠ S754_nan.
Proof.
  unfold PrimFloat.is_nan. rewrite FloatAxioms.eqb_spec. unfold SFeqb.
  intros H Hnan. rewrite Hnan in H. discriminate.
Qed.

Lemma float_leb_not_ltb (x y : float) :
  PrimFloat.leb x y = true → PrimFloat.ltb y x = false.
Proof.
  rewrite FloatAxioms.leb_spec, FloatAxioms.ltb_spec. unfold SFleb, SFltb.
  rewrite (SFcompare_antisym (Prim2SF x) (Prim2SF y)).
  destruct (SFcompare (Prim2SF x) (Prim2SF y)) as [[]|]; simpl; congruence.
Qed.

Lemma float_not_ltb_leb (x y : float) :
  PrimFloat.is_nan x = false → PrimFloat.is_nan y = false →
  PrimFloat.ltb y x = false → PrimFloat.leb x y = true.
Proof.
  intros Hx%is_nan_false_compare Hy%is_nan_false_compare.
  rewrite FloatAxioms.leb_spec, FloatAxioms.ltb_spec. unfold SFleb, SFltb.
  rewrite (SFcompare_antisym (Prim2SF x) (Prim2SF y)).
  destruct (Prim2SF x) as [sx|sx| |sx mx ex] eqn:Ex; try done;
  destruct (Prim2SF y) as [sy|sy| |sy my ey] eqn:Ey; try done;
  destruct (SFcompare _ _) as [[]|] eqn:E; simpl; try congruence;
  simpl in E; try discriminate.
Qed.

(** ** Field outcomes *)

Lemma outcome_ap_Valid {A B} (f : outcome (A → B)) (x : outcome A) (b : B) :
  f <*> x = Valid b ↔ ∃ g a, f = Valid g ∧ x = Valid a ∧ b = g a.
Proof.
  destruct f as [g|ef], x as [a|ex]; simpl; split;
    try (intros [g' [a' (? & ? & ?)]]; congruence);
    try discriminate.
  intros [= <-]. eauto.
Qed.

Lemma outcome_ap_errors {A B} (f : outcome (A → B)) (x : outcome A) :
  outcome_errors (f <*> x) = outcome_errors f ++ outcome_errors x.
Proof. destruct f, x; reflexivity. Qed.

Lemma outcome_ap_Invalid_r {A B} (f : outcome (A → B)) (errs : list error_item) :
  f <*> Invalid errs = Invalid (outcome_errors f ++ errs).
Proof. destruct f; reflexivity. Qed.

(** One field of a construction: either it validated, or the whole
    construction fails whatever the later fields are. *)
Ltac field_case :=
  match goal with
  | |- context [Valid ?c <*> ?o] =>
      let E := fresh "E" in
      destruct o eqn:E;
      [ change (Valid c <*> Valid ?v) with (Valid (c v))
      | simpl; split;
        [ discriminate
        | intros (?&?&?&?&?&?&?&?&?&?&?&?&?); discriminate ] ]
  end.

(** Lookups of literal keys in a map after an insertion or a deletion. *)
Ltac lookup_keys :=
  repeat match goal with
  | |- context [<[?i:=?x]> ?m !! ?i] => rewrite (lookup_insert_eq m i x)
  | |- context [delete ?i ?m !! ?i] => rewrite (lookup_delete_eq m i)
  | |- context [<[?i:=?x]> ?m !! ?j] =>
      rewrite (lookup_insert_ne m i j x) by discriminate
  | |- context [delete ?i ?m !! ?j] =>
      rewrite (lookup_delete_ne m i j) by discriminate
  end.

Section EntryLemmas.
Context (R : py_runtime).

(** A construction that succeeds is one in which every field validated and
    [check_dates] raised nothing; the entry holds the validated values. *)
Lemma FunnelEntry_new_inr (kwargs : gmap string pyval) (e : FunnelEntry) :
  FunnelEntry_new R kwargs = inr e ↔
    optional_field None (validate_str R "id") no_post (kwargs !! "id")
      = Valid (id e) ∧
    required_field "company_name" (validate_str R "company_name")
      (kwargs !! "company_name") = Valid (company_name e) ∧
    required_field "project_name" (validate_str R "project_name")
      (kwargs !! "project_name") = Valid (project_name e) ∧
    required_field "value" (validate_float R "value") (kwargs !! "value")
      = Valid (value e) ∧
    optional_field None (validate_float R "probability") validate_probability
      (kwargs !! "probability") = Valid (probability e) ∧
    optional_field None validate_status no_post (kwargs !! "status")
      = Valid (status e) ∧
    optional_field None (datetime_validator R "start_date") no_post
      (kwargs !! "start_date") = Valid (start_date e) ∧
    optional_field None (datetime_validator R "expected_close_date") no_post
      (kwargs !! "expected_close_date") = Valid (expected_close_date e) ∧
    optional_field (Some []) (validate_contacts R) no_post
      (kwargs !! "contacts") = Valid (contacts e) ∧
    optional_field None (validate_str R "notes") no_post (kwargs !! "notes")
      = Valid (notes e) ∧
    optional_field None (datetime_validator R "last_updated") no_post
      (kwargs !! "last_updated") = Valid (last_updated e) ∧
    defaulted_field "custom_fields" ∅ (validate_dict R "custom_fields")
      (kwargs !! "custom_fields") = Valid (custom_fields e) ∧
    check_dates R (start_date e) (expected_close_date e) = [].
Proof.
  unfold FunnelEntry_new. cbv zeta.
  do 12 field_case.
  simpl outcome_get. destruct e; simpl.
  destruct (check_dates _ _) eqn:Ed.
  - split.
    + intros [= -> -> -> -> -> -> -> -> -> -> -> ->]. rewrite Ed. repeat split.
    + intros (?&?&?&?&?&?&?&?&?&?&?&?&?). simplify_eq. reflexivity.
  - split; [discriminate|].
    intros (?&?&?&?&?&?&?&?&?&?&?&?&?). simplify_eq. congruence.
Qed.

(** A construction that fails raises a [ValidationError] for [FunnelEntry]
    listing the errors of the fields in declaration order, then the error of
    [check_dates]. *)
Lemma FunnelEntry_new_inl (kwargs : gmap string pyval) (ex : exn) :
  FunnelEntry_new R kwargs = inl ex →
  ex = ValidationError "FunnelEntry"
    (outcome_errors
       (optional_field None (validate_str R "id") no_post (kwargs !! "id")) ++
     outcome_errors
       (required_field "company_name" (validate_str R "company_name")
          (kwargs !! "company_name")) ++
     outcome_errors
       (required_field "project_name" (validate_str R "project_name")
          (kwargs !! "project_name")) ++
     outcome_errors
       (required_field "value" (validate_float R "value") (kwargs !! "value")) ++
     outcome_errors
       (optional_field None (validate_float R "probability")
          validate_probability (kwargs !! "probability")) ++
     outcome_errors
       (optional_field None validate_status no_post (kwargs !! "status")) ++
     outcome_errors
       (optional_field None (datetime_validator R "start_date") no_post
          (kwargs !! "start_date")) ++
     outcome_errors
       (optional_field None (datetime_validator R "expected_close_date")
          no_post (kwargs !! "expected_close_date")) ++
     outcome_errors
       (optional_field (Some []) (validate_contacts R) no_post
          (kwargs !! "contacts")) ++
     outcome_errors
       (optional_field None (validate_str R "notes") no_post
          (kwargs !! "notes")) ++
     outcome_errors
       (optional_field None (datetime_validator R "last_updated") no_post
          (kwargs !! "last_updated")) ++
     outcome_errors
       (defaulted_field "custom_fields" ∅ (validate_dict R "custom_fields")
          (kwargs !! "custom_fields")) ++
     check_dates R
       (outcome_get
          (optional_field None (datetime_validator R "start_date") no_post
             (kwargs !! "start_date")))
       (outcome_get
          (optional_field None (datetime_validator R "expected_close_date")
             no_post (kwargs !! "expected_close_date")))).
Proof.
  unfold FunnelEntry_new. cbv zeta.
  match goal with
  | |- match ?fields with _ => _ end = _ → _ =>
      assert (Herr := eq_refl (outcome_errors fields));
      revert Herr; generalize fields at 2 3 4 5
  end.
  intros fields Herr. rewrite !outcome_ap_errors in Herr. simpl in Herr.
  rewrite !(assoc_L (++)). rewrite <- Herr.
  destruct fields, (check_dates _ _); intros [= <-]; reflexivity.
Qed.

(** The [probability] field on a value that converts to the float [x]. *)
Lemma probability_field (v : pyval) (x : float) :
  float_validator R v = Some x →
  optional_field None (validate_float R "probability") validate_probability
    (Some v) = validate_probability (Some x).
Proof.
  intros Hv. unfold optional_field, validate_float. rewrite Hv. simpl.
  destruct v as [[]| |]; try reflexivity. discriminate.
Qed.

(** The error [validate_probability] raises. *)
Local Abbreviation probability_error :=
  (value_error ["probability"] "Probability must be between 0 and 100").

Lemma validate_probability_rejects (x : float) :
  PrimFloat.ltb x 0 = true ∨ PrimFloat.ltb 100 x = true →
  validate_probability (Some x) = Invalid [probability_error].
Proof.
  intros Hx. unfold validate_probability.
  destruct Hx as [-> | ->]; [reflexivity|].
  rewrite orb_true_r. reflexivity.
Qed.

Lemma validate_probability_accepts (x : float) :
  PrimFloat.leb 0 x = true → PrimFloat.leb x 100 = true →
  validate_probability (Some x) = Valid (Some x).
Proof.
  intros H0%float_leb_not_ltb H100%float_leb_not_ltb.
  unfold validate_probability. rewrite H0, H100. reflexivity.
Qed.

Lemma validate_probability_Valid (x : float) (p : option float) :
  validate_probability (Some x) = Valid p →
  p = Some x ∧ PrimFloat.ltb x 0 = false ∧ PrimFloat.ltb 100 x = false.
Proof.
  unfold validate_probability.
  destruct (PrimFloat.ltb x 0) eqn:E0, (PrimFloat.ltb 100 x) eqn:E100;
    simpl; intros [=]; subst; auto.
Qed.

Lemma probability_rejected (kwargs : gmap string pyval) (v : pyval) (x : float) :
  kwargs !! "probability" = Some v →
  float_validator R v = Some x →
  PrimFloat.ltb x 0 = true ∨ PrimFloat.ltb 100 x = true →
  ∃ errs,
    FunnelEntry_new R kwargs = inl (ValidationError "FunnelEntry" errs) ∧
    probability_error ∈ errs.
Proof.
  intros Hk Hv Hx.
  pose proof (probability_field v x Hv) as Hf.
  rewrite (validate_probability_rejects x Hx) in Hf.
  destruct (FunnelEntry_new R kwargs) as [ex|e] eqn:Enew.
  - apply FunnelEntry_new_inl in Enew. rewrite Hk, Hf in Enew.
    eexists. split; [by rewrite Enew|].
    rewrite !elem_of_app. do 4 right. left. simpl. apply list_elem_of_here.
  - apply FunnelEntry_new_inr in Enew.
    destruct Enew as (_&_&_&_&Hp&_). rewrite Hk, Hf in Hp. discriminate.
Qed.

Lemma probability_accepted (kwargs : gmap string pyval) (e : FunnelEntry)
    (v : pyval) (x : float) :
  FunnelEntry_new R (delete "probability" kwargs) = inr e →
  float_validator R v = Some x →
  PrimFloat.leb 0 x = true → PrimFloat.leb x 100 = true →
  ∃ e', FunnelEntry_new R (<["probability" := v]> kwargs) = inr e' ∧
        probability e' = Some x.
Proof.
  intros He Hv H0 H100.
  apply FunnelEntry_new_inr in He. revert He. lookup_keys.
  intros (Hid&Hco&Hpr&Hva&Hpb&Hst&Hsd&Hcd&Hct&Hno&Hup&Hcf&Hroot).
  exists (mk_FunnelEntry (id e) (company_name e) (project_name e) (value e)
            (Some x) (status e) (start_date e) (expected_close_date e)
            (contacts e) (notes e) (last_updated e) (custom_fields e)).
  split; [|reflexivity].
  apply FunnelEntry_new_inr. simpl. lookup_keys.
  rewrite (probability_field v x Hv), (validate_probability_accepts x H0 H100).
  repeat split; assumption.
Qed.

Lemma probability_in_range (kwargs : gmap string pyval) (e : FunnelEntry)
    (p : float) :
  FunnelEntry_new R kwargs = inr e → probability e = Some p →
  PrimFloat.ltb p 0 = false ∧ PrimFloat.ltb 100 p = false.
Proof.
  intros He Hp. apply FunnelEntry_new_inr in He.
  destruct He as (_&_&_&_&Hf&_). rewrite Hp in Hf.
  unfold optional_field in Hf.
  destruct (kwargs !! "probability") as [v|]; [|discriminate].
  assert (∃ y, validate_probability (Some y) = Valid (Some p)) as [x Hx].
  { destruct v as [[]| |]; try discriminate;
      match type of Hf with
      | match ?o with _ => _ end = _ =>
          destruct o as [y|]; [eauto | discriminate]
      end. }
  apply validate_probability_Valid in Hx as ([= ->]&?&?). auto.
Qed.

(** X4. The range check on numbers.  A probability below 0 or above 100 makes
    the construction fail with the validator's error, in particular -1 and
    101; a probability from 0 to 100, in particular 0 and 100, passes the
    check, and so does an absent one or [None]; the probability of a
    constructed entry, when it is a number, lies between 0 and 100. *)
Theorem probability_between_0_and_100 :
  (∀ kwargs v x,
     kwargs !! "probability" = Some v → float_validator R v = Some x →
     PrimFloat.ltb x 0 = true ∨ PrimFloat.ltb 100 x = true →
     ∃ errs,
       FunnelEntry_new R kwargs = inl (ValidationError "FunnelEntry" errs) ∧
       probability_error ∈ errs) ∧
  (∀ kwargs,
     kwargs !! "probability" = Some (PScalar (SFloat (-1))) ∨
     kwargs !! "probability" = Some (PScalar (SFloat 101)) →
     ∃ errs,
       FunnelEntry_new R kwargs = inl (ValidationError "FunnelEntry" errs) ∧
       probability_error ∈ errs) ∧
  (∀ kwargs e v x,
     FunnelEntry_new R (delete "probability" kwargs) = inr e →
     float_validator R v = Some x →
     PrimFloat.leb 0 x = true → PrimFloat.leb x 100 = true →
     ∃ e', FunnelEntry_new R (<["probability" := v]> kwargs) = inr e' ∧
           probability e' = Some x) ∧
  validate_probability (Some 0%float) = Valid (Some 0%float) ∧
  validate_probability (Some 100%float) = Valid (Some 100%float) ∧
  validate_probability None = Valid None ∧
  optional_field None (validate_float R "probability") validate_probability
    None = Valid None ∧
  (∀ kwargs e p,
     FunnelEntry_new R kwargs = inr e → probability e = Some p →
     PrimFloat.is_nan p = false →
     PrimFloat.leb 0 p = true ∧ PrimFloat.leb p 100 = true).
Proof.
  split; [exact probability_rejected|].
  split.
  { intros kwargs [H|H];
      (eapply probability_rejected; [exact H | reflexivity |]);
      [left | right]; reflexivity. }
  split; [exact probability_accepted|].
  do 4 (split; [reflexivity|]).
  intros kwargs e p He Hp Hnan.
  destruct (probability_in_range kwargs e p He Hp) as [H0 H100].
  split; apply float_not_ltb_leb; auto.
Qed.

(** ** Dates *)






(** The errors [check_dates] raises. *)
Local Abbreviation dates_error :=
  (value_error ["__root__"] "Start date must be before expected close date").







(** ** Required strings *)

(** A required string field on each kind of argument. *)
Lemma required_str_missing (fname : string) :
  required_field fname (validate_str R fname) None
    = Invalid [missing_error fname].
Proof. reflexivity. Qed.

Lemma required_str_none (fname : string) :
  required_field fname (validate_str R fname) (Some (PScalar SNone))
    = Invalid [none_error fname].
Proof. reflexivity. Qed.

Lemma required_str_string (fname s : string) :
  required_field fname (validate_str R fname) (Some (PScalar (SStr s)))
    = Valid s.
Proof. reflexivity. Qed.

Lemma required_str_not_str (fname : string) (v : pyval) :
  v ≠ PScalar SNone → str_validator R v = None →
  required_field fname (validate_str R fname) (Some v)
    = Invalid [str_error fname].
Proof.
  intros Hv Hs. unfold required_field, validate_str. rewrite Hs.
  by destruct v as [[]| |].
Qed.

Lemma company_name_rejected (kwargs : gmap string pyval)
    (errs : list error_item) :
  required_field "company_name" (validate_str R "company_name")
    (kwargs !! "company_name") = Invalid errs →
  ∃ all,
    FunnelEntry_new R kwargs = inl (ValidationError "FunnelEntry" all) ∧
    errs ⊆ all.
Proof.
  intros Hf. destruct (FunnelEntry_new R kwargs) as [ex|e] eqn:Enew.
  - apply FunnelEntry_new_inl in Enew. rewrite Hf in Enew.
    eexists. split; [by rewrite Enew|].
    intros x Hx. rewrite !elem_of_app. right. left. exact Hx.
  - apply FunnelEntry_new_inr in Enew.
    destruct Enew as (_&Hc&_). rewrite Hf in Hc. discriminate.
Qed.

Lemma project_name_rejected (kwargs : gmap string pyval)
    (errs : list error_item) :
  required_field "project_name" (validate_str R "project_name")
    (kwargs !! "project_name") = Invalid errs →
  ∃ all,
    FunnelEntry_new R kwargs = inl (ValidationError "FunnelEntry" all) ∧
    errs ⊆ all.
Proof.
  intros Hf. destruct (FunnelEntry_new R kwargs) as [ex|e] eqn:Enew.
  - apply FunnelEntry_new_inl in Enew. rewrite Hf in Enew.
    eexists. split; [by rewrite Enew|].
    intros x Hx. rewrite !elem_of_app. do 2 right. left. exact Hx.
  - apply FunnelEntry_new_inr in Enew.
    destruct Enew as (_&_&Hp&_). rewrite Hf in Hp. discriminate.
Qed.

(** Replacing the two names of keyword arguments that construct an entry by
    any two strings gives an entry again. *)
Lemma names_replaced (kwargs : gmap string pyval) (e : FunnelEntry)
    (company project : string) :
  FunnelEntry_new R kwargs = inr e →
  FunnelEntry_new R
    (<["company_name" := PScalar (SStr company)]>
       (<["project_name" := PScalar (SStr project)]> kwargs)) =
    inr (mk_FunnelEntry (id e) company project (value e) (probability e)
           (status e) (start_date e) (expected_close_date e) (contacts e)
           (notes e) (last_updated e) (custom_fields e)).
Proof.
  intros He. apply FunnelEntry_new_inr in He.
  destruct He as (?&_&_&?&?&?&?&?&?&?&?&?&?).
  apply FunnelEntry_new_inr. simpl. lookup_keys.
  repeat split; assumption.
Qed.

(** C7, as the code has it.  The company name and the project name are
    required strings: when either is missing, is [None], or is a value that
    is no string and converts to none, the construction fails with the
    error of that field.  No check of emptiness is made: keyword arguments
    that construct an entry still do with any strings as the two names, the
    empty string included. *)
Theorem company_and_project_name_required :
  (∀ kwargs fname,
     fname = "company_name" ∨ fname = "project_name" →
     kwargs !! fname = None →
     ∃ errs,
       FunnelEntry_new R kwargs = inl (ValidationError "FunnelEntry" errs) ∧
       missing_error fname ∈ errs) ∧
  (∀ kwargs fname,
     fname = "company_name" ∨ fname = "project_name" →
     kwargs !! fname = Some (PScalar SNone) →
     ∃ errs,
       FunnelEntry_new R kwargs = inl (ValidationError "FunnelEntry" errs) ∧
       none_error fname ∈ errs) ∧
  (∀ kwargs fname v,
     fname = "company_name" ∨ fname = "project_name" →
     kwargs !! fname = Some v → v ≠ PScalar SNone →
     str_validator R v = None →
     ∃ errs,
       FunnelEntry_new R kwargs = inl (ValidationError "FunnelEntry" errs) ∧
       str_error fname ∈ errs) ∧
  (∀ kwargs e company project,
     FunnelEntry_new R kwargs = inr e →
     ∃ e',
       FunnelEntry_new R
         (<["company_name" := PScalar (SStr company)]>
            (<["project_name" := PScalar (SStr project)]> kwargs)) = inr e' ∧
       company_name e' = company ∧ project_name e' = project) ∧
  (∀ kwargs e,
     FunnelEntry_new R kwargs = inr e →
     ∃ e',
       FunnelEntry_new R
         (<["company_name" := PScalar (SStr "")]>
            (<["project_name" := PScalar (SStr "")]> kwargs)) = inr e' ∧
       company_name e' = "" ∧ project_name e' = "").
Proof.
  assert (Hfail : ∀ kwargs fname errs,
    fname = "company_name" ∨ fname = "project_name" →
    required_field fname (validate_str R fname) (kwargs !! fname)
      = Invalid errs →
    ∃ all,
      FunnelEntry_new R kwargs = inl (ValidationError "FunnelEntry" all) ∧
      errs ⊆ all).
  { intros kwargs fname errs [-> | ->];
      [apply company_name_rejected | apply project_name_rejected]. }
  repeat split.
  - intros kwargs fname Hn Hk.
    destruct (Hfail kwargs fname [missing_error fname] Hn) as (all&?&Hsub).
    { rewrite Hk. apply required_str_missing. }
    exists all. split; [done|]. apply Hsub, list_elem_of_here.
  - intros kwargs fname Hn Hk.
    destruct (Hfail kwargs fname [none_error fname] Hn) as (all&?&Hsub).
    { rewrite Hk. apply required_str_none. }
    exists all. split; [done|]. apply Hsub, list_elem_of_here.
  - intros kwargs fname v Hn Hk Hv Hs.
    destruct (Hfail kwargs fname [str_error fname] Hn) as (all&?&Hsub).
    { rewrite Hk. by apply required_str_not_str. }
    exists all. split; [done|]. apply Hsub, list_elem_of_here.
  - intros kwargs e company project He. eexists. split.
    + by apply names_replaced.
    + done.
  - intros kwargs e He. eexists. split.
    + by apply names_replaced.
    + done.
Qed.

(** ** Keyword arguments that name no field *)

(** A construction reads its keyword arguments at the declared names only. *)
Lemma FunnelEntry_new_ext (kwargs kwargs' : gmap string pyval) :
  (∀ k, k ∈ FunnelEntry_fields → kwargs !! k = kwargs' !! k) →
  FunnelEntry_new R kwargs = FunnelEntry_new R kwargs'.
Proof.
  intros Hsame. unfold FunnelEntry_new.
  rewrite (Hsame "id"), (Hsame "company_name"), (Hsame "project_name"),
    (Hsame "value"), (Hsame "probability"), (Hsame "status"),
    (Hsame "start_date"), (Hsame "expected_close_date"), (Hsame "contacts"),
    (Hsame "notes"), (Hsame "last_updated"), (Hsame "custom_fields")
    by (unfold FunnelEntry_fields; set_solver).
  reflexivity.
Qed.

Lemma custom_fields_default (kwargs : gmap string pyval) (e : FunnelEntry) :
  kwargs !! "custom_fields" = None →
  FunnelEntry_new R kwargs = inr e → custom_fields e = ∅.
Proof.
  intros Hk He. apply FunnelEntry_new_inr in He.
  destruct He as (_&_&_&_&_&_&_&_&_&_&_&Hc&_).
  rewrite Hk in Hc. by injection Hc.
Qed.

(** What [__init__] receives is what the dict binds to strings. *)
Lemma keyword_arguments_lookup {V} (kwargs : gmap label V) (s : string) :
  keyword_arguments kwargs !! s = kwargs !! LStr s.
Proof.
  unfold keyword_arguments.
  apply (map_fold_weak_ind (λ data m, data !! s = m !! LStr s)); [done|].
  intros k v m data Hk IH. destruct k as [s'| |].
  - destruct (decide (s' = s)) as [->|Hne].
    + by rewrite !lookup_insert_eq.
    + rewrite !lookup_insert_ne by congruence. exact IH.
  - by rewrite lookup_insert_ne.
  - by rewrite lookup_insert_ne.
Qed.

Lemma FunnelEntry_call_strings (kwargs : gmap label pyval) :
  map_Forall (λ k _, is_str k) kwargs →
  kwargs !! LStr "__pydantic_self__" = None →
  FunnelEntry_call R kwargs = FunnelEntry_new R (keyword_arguments kwargs).
Proof.
  intros Hstr Hself. unfold FunnelEntry_call.
  by rewrite bool_decide_eq_true_2, Hself.
Qed.

Lemma FunnelEntry_call_not_str (kwargs : gmap label pyval) (k : label)
    (v : pyval) :
  kwargs !! k = Some v → is_str k = false →
  FunnelEntry_call R kwargs = inl (TypeError (py_keywords_error R)).
Proof.
  intros Hk Hs. unfold FunnelEntry_call.
  rewrite bool_decide_eq_false_2; [done|].
  intros Hall. specialize (Hall k v Hk). simpl in Hall.
  rewrite Hs in Hall. done.
Qed.

Lemma FunnelEntry_call_self (kwargs : gmap label pyval) (v : pyval) :
  map_Forall (λ k _, is_str k) kwargs →
  kwargs !! LStr "__pydantic_self__" = Some v →
  FunnelEntry_call R kwargs = inl (TypeError (py_self_keyword_error R)).
Proof.
  intros Hstr Hself. unfold FunnelEntry_call.
  by rewrite bool_decide_eq_true_2, Hself.
Qed.

(** The call reads a dict of strings at the declared names and at
    [__pydantic_self__] only. *)
Lemma FunnelEntry_call_ext (kwargs kwargs' : gmap label pyval) :
  map_Forall (λ k _, is_str k) kwargs →
  map_Forall (λ k _, is_str k) kwargs' →
  (∀ s, s ∈ "__pydantic_self__" :: FunnelEntry_fields →
        kwargs !! LStr s = kwargs' !! LStr s) →
  FunnelEntry_call R kwargs = FunnelEntry_call R kwargs'.
Proof.
  intros Hstr Hstr' Hsame. unfold FunnelEntry_call.
  rewrite !bool_decide_eq_true_2 by done.
  rewrite <- (Hsame "__pydantic_self__") by apply list_elem_of_here.
  destruct (kwargs !! LStr "__pydantic_self__"); [done|].
  apply FunnelEntry_new_ext. intros s Hs.
  rewrite !keyword_arguments_lookup. apply Hsame.
  by apply list_elem_of_further.
Qed.

Lemma is_str_LStr (k : label) : is_str k ↔ ∃ s, k = LStr s.
Proof.
  destruct k; simpl; split; try done; eauto; by intros [? [=]].
Qed.

(** C10, as the code has it.  In a dict whose keys are strings, the keys
    that name no declared field are ignored, unless one is
    [__pydantic_self__]: the call gives the same result, entry or error, as
    on the dict restricted to the declared names (also when the dict is a
    cleaned record), and as without any one such key; such a key is not put
    into [custom_fields], which is empty when no [custom_fields] is passed.
    A key that is no string is not ignored, nor is [__pydantic_self__]: the
    call raises a [TypeError], whatever the other keys are bound to. *)
Theorem undeclared_keys_ignored :
  (∀ kwargs,
     (∀ k, is_Some (kwargs !! k) →
           ∃ s, k = LStr s ∧ s ≠ "__pydantic_self__") →
     FunnelEntry_call R kwargs =
     FunnelEntry_call R
       (filter (λ kv, kv.1 ∈ LStr <$> FunnelEntry_fields) kwargs)) ∧
  (∀ record,
     (∀ k, is_Some (record !! k) →
           ∃ s, k = LStr s ∧ s ≠ "__pydantic_self__") →
     FunnelEntry_call R (cleaned_record record) =
     FunnelEntry_call R
       (cleaned_record
          (filter (λ kv, kv.1 ∈ LStr <$> FunnelEntry_fields) record))) ∧
  (∀ kwargs s v,
     s ∉ FunnelEntry_fields → s ≠ "__pydantic_self__" →
     FunnelEntry_call R (<[LStr s := v]> kwargs) = FunnelEntry_call R kwargs) ∧
  (∀ kwargs s v e,
     s ∉ FunnelEntry_fields →
     kwargs !! LStr "custom_fields" = None →
     FunnelEntry_call R (<[LStr s := v]> kwargs) = inr e →
     custom_fields e = ∅) ∧
  (∀ kwargs k v,
     kwargs !! k = Some v → (∀ s, k ≠ LStr s) →
     FunnelEntry_call R kwargs = inl (TypeError (py_keywords_error R))) ∧
  (∀ kwargs v,
     (∀ k, is_Some (kwargs !! k) → ∃ s, k = LStr s) →
     kwargs !! LStr "__pydantic_self__" = Some v →
     FunnelEntry_call R kwargs = inl (TypeError (py_self_keyword_error R))).
Proof.
  assert (Hdeclared : ∀ s,
    s ∈ FunnelEntry_fields → LStr s ∈ LStr <$> FunnelEntry_fields).
  { intros s Hs. apply list_elem_of_fmap. by exists s. }
  assert (Hself : "__pydantic_self__" ∉ FunnelEntry_fields).
  { apply (bool_decide_unpack _). by vm_compute. }
  assert (Hfilter : ∀ (V : Type) (m : gmap label V) s,
    s ∈ "__pydantic_self__" :: FunnelEntry_fields →
    (∀ k, is_Some (m !! k) → ∃ s, k = LStr s ∧ s ≠ "__pydantic_self__") →
    m !! LStr s =
    filter (λ kv, kv.1 ∈ LStr <$> FunnelEntry_fields) m !! LStr s).
  { intros V m s Hs Hm. apply option_eq. intros x.
    rewrite map_lookup_filter_Some. simpl. split; [|by intros [? _]].
    intros Hx. split; [done|].
    apply elem_of_cons in Hs as [->|Hs]; [|by apply Hdeclared].
    destruct (Hm (LStr "__pydantic_self__")) as (s&[= <-]&Hne); [by eexists|].
    done. }
  assert (Hstrings : ∀ (V : Type) (m : gmap label V),
    (∀ k, is_Some (m !! k) → ∃ s, k = LStr s ∧ s ≠ "__pydantic_self__") →
    map_Forall (λ k _, is_str k) m).
  { intros V m Hm k x Hk. apply is_str_LStr.
    destruct (Hm k) as (s&->&_); [by eexists|]. by exists s. }
  assert (Hsub : ∀ (V : Type) (m : gmap label V),
    map_Forall (λ k _, is_str k) m →
    map_Forall (λ k _, is_str k)
      (filter (λ kv, kv.1 ∈ LStr <$> FunnelEntry_fields) m)).
  { intros V m Hm k x [Hk _]%map_lookup_filter_Some. by apply (Hm k x). }
  assert (Hclean : ∀ record k,
    is_Some (cleaned_record record !! k) → is_Some (record !! k)).
  { intros record k. unfold cleaned_record. rewrite lookup_omap.
    destruct (record !! k); [by eexists | by intros [? [=]]]. }
  split; [|split; [|split; [|split; [|split]]]].
  - intros kwargs Hk. apply FunnelEntry_call_ext; auto.
  - intros record Hk.
    assert (Hk' : ∀ k, is_Some (cleaned_record record !! k) →
                       ∃ s, k = LStr s ∧ s ≠ "__pydantic_self__") by auto.
    apply FunnelEntry_call_ext.
    + auto.
    + apply Hstrings. intros k Hc%Hclean.
      destruct Hc as [c [Hc _]%map_lookup_filter_Some]. apply Hk. by eexists.
    + intros s Hs. unfold cleaned_record. rewrite !lookup_omap. f_equal.
      by apply Hfilter.
  - intros kwargs s v Hs Hne. unfold FunnelEntry_call.
    destruct (bool_decide (map_Forall (λ k _, is_str k) kwargs)) eqn:Estr.
    + apply bool_decide_eq_true_1 in Estr.
      rewrite bool_decide_eq_true_2 by by apply map_Forall_insert_2.
      rewrite lookup_insert_ne by congruence.
      destruct (kwargs !! LStr "__pydantic_self__"); [done|].
      apply FunnelEntry_new_ext. intros s' Hs'.
      rewrite !keyword_arguments_lookup. apply lookup_insert_ne.
      intros [= ->]. done.
    + apply bool_decide_eq_false_1 in Estr.
      rewrite bool_decide_eq_false_2; [done|].
      intros Hall. apply Estr. intros k x Hk.
      destruct (decide (k = LStr s)) as [->|Hks]; [done|].
      apply (Hall k x). by rewrite lookup_insert_ne.
  - intros kwargs s v e Hs Hc He. unfold FunnelEntry_call in He.
    destruct (bool_decide _); [|discriminate].
    destruct (_ !! LStr "__pydantic_self__"); [discriminate|].
    apply (custom_fields_default _ e) in He; [done|].
    rewrite keyword_arguments_lookup, lookup_insert_ne; [done|].
    intros [= ->]. apply Hs. apply (bool_decide_unpack _). by vm_compute.
  - intros kwargs k v Hk Hs. apply (FunnelEntry_call_not_str kwargs k v Hk).
    destruct k; simpl; try done. by destruct (Hs s).
  - intros kwargs v Hk Hv. apply (FunnelEntry_call_self kwargs v); [|done].
    intros k x Hx. apply is_str_LStr. apply Hk. by eexists.
Qed.
End EntryLemmas.

(** ** The validation loop *)

Lemma omap_length_le {A B} (f : A → option B) (l : list A) :
  (length (omap f l) ≤ length l)%nat.
Proof.
  induction l as [|x l IH]; [done|].
  change (omap f (x :: l)) with
    (match f x with Some y => y :: omap f l | None => omap f l end).
  destruct (f x); simpl; lia.
Qed.

Section PipelineLemmas.
Context (R : py_runtime).

(** The loop appends the entries of the valid records and one message per
    failing record, in the order of the records. *)
Lemma validate_records_spec (records : list (gmap label cell)) (i : nat)
    (entries : list FunnelEntry) (validation_errors : list string) :
  validate_records R i records entries validation_errors =
    (entries ++ valid_rows R records,
     validation_errors ++
       ((λ p, row_error p.1 p.2) <$> row_failures_from R i records)).
Proof.
  revert i entries validation_errors.
  induction records as [|record rest IH]; intros i entries validation_errors.
  - simpl. by rewrite !app_nil_r.
  - unfold valid_rows, row_failures_from. simpl.
    destruct (FunnelEntry_call R (cleaned_record record)) as [e|entry];
      rewrite IH; simpl; by rewrite <- app_assoc.
Qed.

(** The failures are those of the records that do not validate, each once,
    at its own index. *)
Lemma row_failures_from_lookup (records : list (gmap label cell))
    (i j : nat) (e : exn) :
  (j, e) ∈ row_failures_from R i records ↔
  ∃ n record, j = i + n ∧ records !! n = Some record ∧
              FunnelEntry_call R (cleaned_record record) = inl e.
Proof.
  revert i. induction records as [|record rest IH]; intros i.
  - unfold row_failures_from. simpl. split.
    + by intros ?%elem_of_nil.
    + by intros (n&r&_&?&_).
  - unfold row_failures_from. simpl.
    fold (row_failures_from R (S i) rest).
    assert (Hrest : (j, e) ∈ row_failures_from R (S i) rest ↔
              ∃ n record, j = i + S n ∧ rest !! n = Some record ∧
                FunnelEntry_call R (cleaned_record record) = inl e).
    { rewrite IH. split; intros (n&r&->&?&?); exists n, r;
        (split; [lia|done]). }
    destruct (FunnelEntry_call R (cleaned_record record)) as [e'|entry] eqn:E.
    + rewrite elem_of_cons, Hrest. split.
      * intros [[= -> ->]|(n&r&->&?&?)].
        -- exists 0, record. by rewrite Nat.add_0_r.
        -- by exists (S n), r.
      * intros ([|n]&r&->&Hr&He); simpl in Hr.
        -- left. injection Hr as <-. rewrite Nat.add_0_r. congruence.
        -- right. by exists n, r.
    + rewrite Hrest. split.
      * intros (n&r&->&?&?). by exists (S n), r.
      * intros ([|n]&r&->&Hr&He); simpl in Hr.
        -- injection Hr as <-. congruence.
        -- by exists n, r.
Qed.

Lemma row_failures_lookup (records : list (gmap label cell)) (j : nat)
    (e : exn) :
  (j, e) ∈ row_failures R records ↔
  ∃ record, records !! j = Some record ∧
            FunnelEntry_call R (cleaned_record record) = inl e.
Proof.
  unfold row_failures. rewrite row_failures_from_lookup. split.
  - intros (n&r&->&?&?). by exists r.
  - intros (r&?&?). by exists j, r.
Qed.

(** The aggregate error is re-raised as it is by the outer handler. *)
Lemma aggregate_error_reraised (text : string) :
  is_ValueError (ValueError ("Data validation errors: " +:+ text)) &&
  str_contains "Data validation errors"
    (str_exn (ValueError ("Data validation errors: " +:+ text))) = true.
Proof. reflexivity. Qed.

(** What [extract_validated_data] returns once the sheet is read. *)
Lemma extract_validated_data_read (env : environment) (now : datetime)
    (file_path : string) (sheet_name : option string)
    (mapping : option (gmap string string)) (df : DataFrame) :
  extract_data env file_path sheet_name = inr df →
  extract_validated_data R env now file_path sheet_name mapping =
    let records := mapped_records (default default_mapping mapping) df in
    match row_failures R records with
    | [] =>
        FunnelData_new (valid_rows R records) now file_path sheet_name None
    | failures =>
        inl (ValueError
               ("Data validation errors: " +:+
                str_join "; " ((λ p, row_error p.1 p.2) <$> failures)))
    end.
Proof.
  intros Hread. unfold extract_validated_data. rewrite Hread. cbv zeta.
  rewrite validate_records_spec. simpl.
  fold (row_failures R (mapped_records (default default_mapping mapping) df)).
  destruct (row_failures R _) as [|failure failures]; [reflexivity|].
  cbn [fmap list_fmap]. by rewrite aggregate_error_reraised.
Qed.

(** A sheet without rows gives a dataset without entries, and no error. *)
Lemma extract_validated_data_no_rows (env : environment) (now : datetime)
    (file_path : string) (sheet_name : option string)
    (mapping : option (gmap string string)) (df : DataFrame) :
  extract_data env file_path sheet_name = inr df →
  rows df = [] →
  extract_validated_data R env now file_path sheet_name mapping =
    inr (mk_FunnelData [] now file_path sheet_name None).
Proof.
  intros Hread Hrows.
  rewrite (extract_validated_data_read _ _ _ _ _ _ Hread). cbv zeta.
  unfold mapped_records, to_dict_records, df_rename. simpl.
  rewrite Hrows. reflexivity.
Qed.

(** C1. Once the sheet is read, a batch in which [k > 0] records fail entry
    validation makes [extract_validated_data] raise one [ValueError] and
    return no dataset; its text joins [k] messages, one per failing record
    in the order of the records, the message of the record at index [i]
    being tagged [Row i + 2]; the failing records are all the records
    that do not validate, those after another failing one included. *)
Theorem row_failures_reported (env : environment) (now : datetime)
    (file_path : string) (sheet_name : option string)
    (mapping : option (gmap string string)) (df : DataFrame) (k : nat) :
  extract_data env file_path sheet_name = inr df →
  length (row_failures R (mapped_records (default default_mapping mapping) df))
    = k →
  (0 < k)%nat →
  let records := mapped_records (default default_mapping mapping) df in
  ∃ messages,
    extract_validated_data R env now file_path sheet_name mapping =
      inl (ValueError
             ("Data validation errors: " +:+ str_join "; " messages)) ∧
    length messages = k ∧
    (k ≤ length records)%nat ∧
    messages =
      (λ p, "Row " +:+ str_of_nat (p.1 + 2) +:+ ": " +:+ str_exn p.2)
        <$> row_failures R records ∧
    (∀ i e, (i, e) ∈ row_failures R records ↔
            ∃ record, records !! i = Some record ∧
                      FunnelEntry_call R (cleaned_record record) = inl e).
Proof.
  intros Hread Hk Hpos records. subst records.
  set (records := mapped_records (default default_mapping mapping) df) in *.
  exists ((λ p, row_error p.1 p.2) <$> row_failures R records).
  split; [|split; [|split; [|split]]].
  - rewrite (extract_validated_data_read _ _ _ _ _ _ Hread). cbv zeta.
    fold records. destruct (row_failures R records) eqn:E; [|done].
    simpl in Hk. lia.
  - by rewrite length_fmap.
  - subst k. unfold row_failures, row_failures_from.
    pose proof (omap_length_le
      (λ p : nat * gmap label cell,
         match FunnelEntry_call R (cleaned_record p.2) with
         | inl e => Some (p.1, e)
         | inr _ => None
         end) (zip (seq 0 (length records)) records)) as Hlen.
    rewrite length_zip, length_seq in Hlen. fold records. lia.
  - reflexivity.
  - apply row_failures_lookup.
Qed.
End PipelineLemmas.

(** ** The column mapping *)

Section DictOfPairs.
Context {K V : Type} `{Countable K}.

Lemma dict_of_pairs_app (l1 l2 : list (K * V)) :
  dict_of_pairs (l1 ++ l2) =
  foldl (λ m p, <[p.1 := p.2]> m) (dict_of_pairs l1) l2.
Proof. apply foldl_app. Qed.

Lemma dict_of_pairs_snoc (l : list (K * V)) (k : K) (v : V) :
  dict_of_pairs (l ++ [(k, v)]) = <[k := v]> (dict_of_pairs l).
Proof. unfold dict_of_pairs. by rewrite foldl_snoc. Qed.

(** Pairs with another key do not change what a key is bound to. *)
Lemma foldl_insert_lookup (l : list (K * V)) (m m' : gmap K V) (k : K) :
  m !! k = m' !! k →
  foldl (λ m p, <[p.1 := p.2]> m) m l !! k =
  foldl (λ m p, <[p.1 := p.2]> m) m' l !! k.
Proof.
  revert m m'. induction l as [|[k' v] l IH]; intros m m' Hk; [done|].
  simpl. apply IH. rewrite !lookup_insert. by case_decide.
Qed.

Lemma foldl_insert_commute (l : list (K * V)) (m : gmap K V) (k : K) (v : V) :
  k ∉ l.*1 →
  foldl (λ m p, <[p.1 := p.2]> m) (<[k := v]> m) l =
  <[k := v]> (foldl (λ m p, <[p.1 := p.2]> m) m l).
Proof.
  revert m. induction l as [|[k' v'] l IH]; intros m Hk; [done|].
  simpl in *. apply not_elem_of_cons in Hk as [Hne Hk].
  rewrite <- IH by done. f_equal. by apply insert_insert_ne.
Qed.

Lemma foldl_insert_is_Some (l : list (K * V)) (m : gmap K V) (k : K) :
  is_Some (m !! k) → is_Some (foldl (λ m p, <[p.1 := p.2]> m) m l !! k).
Proof.
  revert m. induction l as [|[k' v'] l IH]; intros m Hk; [done|].
  simpl. apply IH. rewrite lookup_insert. by case_decide.
Qed.

Lemma dict_of_pairs_lookup_None (l : list (K * V)) (k : K) :
  k ∉ l.*1 → dict_of_pairs l !! k = None.
Proof.
  intros Hk. unfold dict_of_pairs.
  induction l as [|[k' v'] l IH] using rev_ind; [done|].
  rewrite foldl_snoc. rewrite fmap_app, not_elem_of_app in Hk.
  destruct Hk as [Hk Hk']. simpl in *.
  rewrite lookup_insert_ne; [by apply IH|].
  intros ->. apply Hk', list_elem_of_here.
Qed.

(** With distinct keys every pair is found under its key. *)
Lemma dict_of_pairs_lookup_NoDup (l : list (K * V)) (k : K) (v : V) :
  NoDup l.*1 → (k, v) ∈ l → dict_of_pairs l !! k = Some v.
Proof.
  induction l as [|[k' v'] l IH] using rev_ind; intros Hnd Hin.
  - by apply elem_of_nil in Hin.
  - rewrite dict_of_pairs_snoc. rewrite fmap_app in Hnd.
    apply NoDup_app in Hnd as (Hnd & Hdisj & _).
    apply elem_of_app in Hin as [Hin|Hin].
    + rewrite lookup_insert_ne; [by apply IH|].
      intros <-. apply (Hdisj k').
      * apply list_elem_of_fmap. by exists (k', v).
      * simpl. apply list_elem_of_here.
    + apply list_elem_of_singleton in Hin as [= -> ->].
      apply lookup_insert_eq.
Qed.
End DictOfPairs.

Lemma zip_fst_subseteq {A B} (l : list A) (k : list B) (x : A) :
  x ∈ (zip l k).*1 → x ∈ l.
Proof.
  revert k. induction l as [|a l IH]; intros [|b k]; simpl;
    try by intros ?%elem_of_nil.
  rewrite !elem_of_cons. intros [->|H]; [by left|right; eauto].
Qed.

Lemma zip_fst_NoDup {A B} (l : list A) (k : list B) :
  NoDup l → NoDup (zip l k).*1.
Proof.
  intros Hnd. revert k. induction Hnd as [|a l Ha Hnd IH]; intros [|b k];
    simpl; try apply NoDup_nil_2.
  apply NoDup_cons. split; [|apply IH].
  intros Hin. apply Ha. by eapply zip_fst_subseteq.
Qed.

(** What [rename] makes of a label: the target of the mapping for a string
    that is a key of it, the label itself otherwise. *)
Lemma rename_label_mapped (mapping : gmap string string) (s target : string) :
  mapping !! s = Some target → rename_label mapping (LStr s) = LStr target.
Proof. intros Hs. simpl. by rewrite Hs. Qed.

Lemma rename_label_unmapped (mapping : gmap string string) (c : label) :
  (∀ s, c = LStr s → mapping !! s = None) → rename_label mapping c = c.
Proof.
  intros Hc. destruct c as [s| |]; [|done..]. simpl. by rewrite (Hc s).
Qed.

(** The renaming dict the extractor builds renames the labels of the frame
    as the mapping itself does. *)
Lemma rename_label_filter (mapping : gmap string string) (cols : list label)
    (c : label) :
  c ∈ cols →
  rename_label (filter (λ kv, LStr kv.1 ∈ cols) mapping) c
  = rename_label mapping c.
Proof.
  intros Hc. destruct c as [s| |]; [|done..]. simpl.
  assert (Hs : filter (λ kv, LStr kv.1 ∈ cols) mapping !! s = mapping !! s).
  { apply option_eq. intros t. rewrite map_lookup_filter_Some.
    split; [by intros [? _] | by intros ?]. }
  by rewrite Hs.
Qed.

Lemma mapped_records_rows (mapping : gmap string string) (df : DataFrame) :
  mapped_records mapping df =
  (λ row, dict_of_pairs (zip (rename_label mapping <$> columns df) row))
    <$> rows df.
Proof.
  unfold mapped_records, to_dict_records, df_rename. simpl.
  assert (Hcols :
    rename_label (filter (λ kv, LStr kv.1 ∈ columns df) mapping)
      <$> columns df
    = rename_label mapping <$> columns df).
  { apply list_fmap_ext. intros i c Hc.
    apply rename_label_filter. by eapply list_elem_of_lookup_2. }
  by rewrite Hcols.
Qed.

(** A label that no column is renamed to, said on the mapping and the
    labels of the sheet: it is no label of the sheet that the mapping
    leaves alone, and no target of a label of the sheet. *)
Lemma not_a_renamed_label (mapping : gmap string string) (cols : list label)
    (k : label) :
  (k ∈ cols → ∃ s target, k = LStr s ∧ mapping !! s = Some target ∧
                          target ≠ s) →
  (∀ s s', k = LStr s → mapping !! s' = Some s → s' ≠ s → LStr s' ∉ cols) →
  k ∉ rename_label mapping <$> cols.
Proof.
  intros Hown Htarget Hin.
  apply list_elem_of_fmap in Hin as (c & Hk & Hc).
  destruct c as [s'| |]; simpl in Hk.
  - destruct (mapping !! s') as [t|] eqn:Ht.
    + destruct (decide (s' = t)) as [->|Hne].
      * subst k. destruct (Hown Hc) as (s&target&[= <-]&Hm&Hneq). congruence.
      * by apply (Htarget t s' Hk Ht).
    + subst k. destruct (Hown Hc) as (s&target&[= <-]&Hm&_). congruence.
  - subst k. by destruct (Hown Hc) as (?&?&?&_).
  - subst k. by destruct (Hown Hc) as (?&?&?&_).
Qed.

(** C8, as the code has it.  The column mapping renames the mapped columns
    and keeps every other column under its own label.  A row with one more
    column [c] that is no key of the mapping is mapped to a row that binds
    every other key as the row without that column does and that binds [c]
    as well: to the cell of the extra column when no later column is
    renamed to [c], and then, when no other column at all is, the mapped row
    is the one of the row without the column plus [c], which that one does
    not bind.  Renaming: when the labels after renaming are distinct, the
    cell of a column whose label is a key of the mapping is found under the
    target of that label, in both mapped rows; and its own label, when it
    differs from the target, when no column is mapped to it and when it is
    not the extra column's, is bound in neither. *)
Theorem unmapped_column_kept (mapping : gmap string string)
    (c1 c2 : list label) (r1 r2 : list cell) (c : label) (x : cell) :
  (∀ s, c = LStr s → mapping !! s = None) →
  length c1 = length r1 →
  ∃ record record',
    mapped_records mapping (mk_DataFrame (c1 ++ c2) [r1 ++ r2]) = [record] ∧
    mapped_records mapping (mk_DataFrame (c1 ++ c :: c2) [r1 ++ x :: r2])
      = [record'] ∧
    (∀ k, k ≠ c → record' !! k = record !! k) ∧
    is_Some (record' !! c) ∧
    (c ∉ rename_label mapping <$> c2 → record' !! c = Some x) ∧
    (c ∉ rename_label mapping <$> (c1 ++ c2) →
     record' = <[c := x]> record ∧ record !! c = None) ∧
    (∀ j s target y,
       (c1 ++ c2) !! j = Some (LStr s) → mapping !! s = Some target →
       (r1 ++ r2) !! j = Some y →
       NoDup (rename_label mapping <$> (c1 ++ c2)) →
       record !! LStr target = Some y ∧
       (LStr target ≠ c → record' !! LStr target = Some y) ∧
       (target ≠ s →
        (∀ s', mapping !! s' = Some s → s' ≠ s → LStr s' ∉ c1 ++ c2) →
        record !! LStr s = None ∧
        (LStr s ≠ c → record' !! LStr s = None))).
Proof.
  intros Hc Hlen.
  assert (Hlen' : length (rename_label mapping <$> c1) = length r1)
    by by rewrite length_fmap.
  assert (Hcc : rename_label mapping c = c)
    by by apply rename_label_unmapped.
  rewrite !mapped_records_rows. simpl.
  exists (dict_of_pairs (zip (rename_label mapping <$> c1 ++ c2) (r1 ++ r2))),
    (dict_of_pairs
       (zip (rename_label mapping <$> c1 ++ c :: c2) (r1 ++ x :: r2))).
  split; [reflexivity|]. split; [reflexivity|].
  assert (Hkept :
    let record :=
      dict_of_pairs (zip (rename_label mapping <$> c1 ++ c2) (r1 ++ r2)) in
    let record' :=
      dict_of_pairs
        (zip (rename_label mapping <$> c1 ++ c :: c2) (r1 ++ x :: r2)) in
    (∀ k, k ≠ c → record' !! k = record !! k) ∧
    is_Some (record' !! c) ∧
    (c ∉ rename_label mapping <$> c2 → record' !! c = Some x) ∧
    (c ∉ rename_label mapping <$> (c1 ++ c2) →
     record' = <[c := x]> record ∧ record !! c = None)).
  { cbv zeta. rewrite !fmap_app, fmap_cons, Hcc.
    rewrite (zip_with_app _ _ _ r1 r2 Hlen').
    rewrite (zip_with_app _ _ (c :: _) r1 (x :: r2) Hlen'). simpl.
    set (l1 := zip (rename_label mapping <$> c1) r1).
    set (l2 := zip (rename_label mapping <$> c2) r2).
    rewrite !dict_of_pairs_app. simpl.
    split; [|split; [|split]].
    - intros k Hk. apply foldl_insert_lookup. by rewrite lookup_insert_ne.
    - apply foldl_insert_is_Some. rewrite lookup_insert_eq. by eexists.
    - intros Hc2. rewrite foldl_insert_commute.
      + apply lookup_insert_eq.
      + intros Hin. apply Hc2. by eapply zip_fst_subseteq.
    - intros Hall. apply not_elem_of_app in Hall as [Hn1 Hn2].
      split.
      + apply foldl_insert_commute.
        intros Hin. apply Hn2. by eapply zip_fst_subseteq.
      + rewrite <- dict_of_pairs_app. apply dict_of_pairs_lookup_None.
        rewrite fmap_app, not_elem_of_app.
        split; intros Hin; [apply Hn1|apply Hn2];
          by eapply zip_fst_subseteq. }
  cbv zeta in Hkept. destruct Hkept as (Hother & Hsome & Hlater & Hnone).
  split; [exact Hother|]. split; [exact Hsome|]. split; [exact Hlater|].
  split; [exact Hnone|].
  intros j s target y Hj Hs Hy Hnd.
  assert (Hrecord :
    dict_of_pairs (zip (rename_label mapping <$> c1 ++ c2) (r1 ++ r2))
      !! LStr target = Some y).
  { apply dict_of_pairs_lookup_NoDup; [by apply zip_fst_NoDup|].
    apply list_elem_of_lookup. exists j.
    apply lookup_zip_with_Some. exists (LStr target), y.
    split; [done|]. split; [|done].
    rewrite list_lookup_fmap, Hj. simpl. by rewrite Hs. }
  split; [exact Hrecord|]. split.
  { intros Hne. by rewrite Hother. }
  intros Hts Hsources.
  assert (Hgone :
    dict_of_pairs (zip (rename_label mapping <$> c1 ++ c2) (r1 ++ r2))
      !! LStr s = None).
  { apply dict_of_pairs_lookup_None. intros Hin%zip_fst_subseteq.
    revert Hin. apply not_a_renamed_label.
    - intros _. by exists s, target.
    - intros s0 s' [= <-]. apply Hsources. }
  split; [exact Hgone|]. intros Hne. by rewrite Hother.
Qed.

(** ** The dataset *)

Lemma py_sum_snoc (xs : list float) (x : float) :
  py_sum (xs ++ [x]) = PrimFloat.add (py_sum xs) x.
Proof. apply foldl_snoc. Qed.

(** X18. A dataset built from a list of entries that is not empty has as
    total the sum of the values of the entries, whatever total was passed;
    the sum starts from 0 and adds the values in the order of the list. *)
Theorem total_value_is_sum (es : list FunnelEntry) (date : datetime)
    (file : string) (sheet : option string) (passed : option float) :
  es ≠ [] →
  ∃ data,
    FunnelData_new es date file sheet passed = inr data ∧
    entries data = es ∧
    total_value data = Some (py_sum (value <$> es)) ∧
    py_sum [] = 0%float ∧
    (∀ e, py_sum (value <$> (es ++ [e]))
          = PrimFloat.add (py_sum (value <$> es)) (value e)).
Proof.
  intros Hes. eexists. split; [reflexivity|]. simpl.
  split; [done|]. split; [by destruct es|]. split; [done|].
  intros e. rewrite fmap_app. apply py_sum_snoc.
Qed.

(** ** The folder scan *)

Lemma scan_folder_not_found (env : environment) (folder_path pattern : string) :
  path_exists env folder_path = false →
  scan_folder_for_excel_files env folder_path pattern =
    inl (FileNotFoundError
           ("Folder not found: " +:+ folder_path +:+
            ". Make sure the path is correct.")).
Proof. intros H. unfold scan_folder_for_excel_files. by rewrite H. Qed.

Lemma scan_folder_not_a_directory (env : environment)
    (folder_path pattern : string) :
  path_exists env folder_path = true →
  path_isdir env folder_path = false →
  scan_folder_for_excel_files env folder_path pattern =
    inl (PyException
           ("Error scanning folder for Excel files: Not a directory: " +:+
            folder_path)).
Proof.
  intros He Hd. unfold scan_folder_for_excel_files. by rewrite He, Hd.
Qed.

Lemma scan_folder_directory (env : environment)
    (folder_path pattern : string) :
  path_exists env folder_path = true →
  path_isdir env folder_path = true →
  scan_folder_for_excel_files env folder_path pattern =
    inr (glob env folder_path pattern).
Proof.
  intros He Hd. unfold scan_folder_for_excel_files. by rewrite He, Hd.
Qed.

(** ** The properties on the data of the tests *)

Lemma row_failures_reported_witness :
  extract_validated_data no_coercion (workbook sheet_with_bad_probability)
    (date 2025 4 16) "sample_funnel.xlsx" (Some "Sheet1") None =
  inl (ValueError
         "Data validation errors: Row 3: 1 validation error for FunnelEntry
probability
  Probability must be between 0 and 100 (type=value_error)").
Proof.
  destruct (row_failures_reported no_coercion
              (workbook sheet_with_bad_probability) (date 2025 4 16)
              "sample_funnel.xlsx" (Some "Sheet1") None
              sheet_with_bad_probability 1)
    as (messages & -> & _ & _ & -> & _);
    [reflexivity | vm_compute; reflexivity | lia |].
  vm_compute. reflexivity.
Defined.

(** C2 on the code: [FunnelData] accepts the empty list of entries, which
    [test_funnel_data_model] expects it to reject, and then keeps the total
    that was passed, which is not the sum of no values. *)
Theorem total_value_kept_for_no_entries :
  ∃ data,
    FunnelData_new [] (date 2025 4 16) "path/to/file.xlsx" None (Some 5%float)
      = inr data ∧
    total_value data = Some 5%float ∧
    py_sum (value <$> entries data) = 0%float ∧
    PrimFloat.eqb 5 0 = false.
Proof. eexists. repeat split. Qed.

Lemma total_value_is_sum_witness :
  ∃ data,
    FunnelData_new (valid_rows no_coercion (mapped_records default_mapping
                                              mock_excel_data))
      (date 2025 4 16) "path/to/file.xlsx" (Some "Sheet1") (Some 5%float)
      = inr data ∧
    total_value data = Some 225000%float.
Proof.
  destruct (total_value_is_sum
              (valid_rows no_coercion
                 (mapped_records default_mapping mock_excel_data))
              (date 2025 4 16) "path/to/file.xlsx" (Some "Sheet1")
              (Some 5%float))
    as (data & Hnew & _ & Htotal & _); [by vm_compute|].
  exists data. split; [exact Hnew|]. rewrite Htotal. by vm_compute.
Defined.

(** C3 on the code: a sheet without data rows is extracted as a dataset
    without entries and without total, and so is [FunnelData] built on the
    empty list as in [test_funnel_data_model]. *)
Theorem empty_sheet_gives_empty_dataset (R : py_runtime) (now : datetime) :
  extract_validated_data R (workbook empty_sheet) now "sample_funnel.xlsx"
    (Some "Sheet1") None =
    inr (mk_FunnelData [] now "sample_funnel.xlsx" (Some "Sheet1") None) ∧
  FunnelData_new [] (date 2025 4 16) "path/to/file.xlsx" None None =
    inr (mk_FunnelData [] (date 2025 4 16) "path/to/file.xlsx" None None).
Proof. split; reflexivity. Qed.

(** C4 on the code: with the mapping of [test_custom_mapping] the column
    [Probability (%)] is renamed to the label [custom_fields.probability_pct],
    which names no field; the entries have no probability and an empty
    [custom_fields]. *)
Theorem dotted_target_is_dropped (R : py_runtime) (now : datetime) :
  ∃ e1 e2 e3,
    extract_validated_data R (workbook mock_excel_data) now
      "sample_funnel.xlsx" (Some "Sheet1") (Some custom_mapping) =
      inr (mk_FunnelData [e1; e2; e3] now "sample_funnel.xlsx" (Some "Sheet1")
             (Some 225000%float)) ∧
    e1 = mk_FunnelEntry None "ABC Corp" "Website Redesign" 50000 None None
           None None (Some []) None None ∅ ∧
    probability e1 = None ∧
    custom_fields e1 !! "probability_pct" = None ∧
    (mapped_records custom_mapping mock_excel_data !! 0%nat)
      ≫= (λ record, record !! LStr "custom_fields.probability_pct")
      = Some (CVal (SFloat 80)).
Proof.
  do 3 eexists. split; [vm_compute; reflexivity|].
  repeat split; by vm_compute.
Qed.

(** C5 on the code: NaN is neither below 0 nor above 100, so
    [validate_probability] returns it and the entry is constructed with a
    probability that does not satisfy [0 <= probability <= 100]. *)
Theorem nan_probability_accepted (R : py_runtime) :
  ∃ e,
    FunnelEntry_new R
      (<["probability" := PScalar (SFloat PrimFloat.nan)]> minimal_kwargs)
      = inr e ∧
    probability e = Some PrimFloat.nan ∧
    validate_probability (Some PrimFloat.nan) = Valid (Some PrimFloat.nan) ∧
    PrimFloat.leb 0 PrimFloat.nan = false ∧
    PrimFloat.leb PrimFloat.nan 100 = false.
Proof. eexists. split; [vm_compute; reflexivity|]. by repeat split. Qed.

Lemma probability_between_0_and_100_witness :
  (∃ errs,
     FunnelEntry_new no_coercion
       (<["probability" := PScalar (SFloat 120)]> minimal_kwargs)
       = inl (ValidationError "FunnelEntry" errs) ∧
     value_error ["probability"] "Probability must be between 0 and 100"
       ∈ errs) ∧
  (∃ e', FunnelEntry_new no_coercion
           (<["probability" := PScalar (SFloat 80)]> minimal_kwargs) = inr e' ∧
         probability e' = Some 80%float).
Proof.
  pose proof (probability_between_0_and_100 no_coercion) as (Hrej&_&Hacc&_).
  split.
  - apply (Hrej _ (PScalar (SFloat 120)) 120%float);
      [apply lookup_insert_eq | reflexivity | right; reflexivity].
  - eapply (Hacc minimal_kwargs _ (PScalar (SFloat 80)) 80%float);
      [vm_compute; reflexivity | reflexivity..].
Defined.


(** C7, as stated, fails: empty strings are accepted as company name and as
    project name. *)
Lemma empty_names_accepted :
  ∃ e,
    (∀ R, FunnelEntry_new R
            (dict_of_pairs
               [("company_name", PScalar (SStr ""));
                ("project_name", PScalar (SStr ""));
                ("value", PScalar (SFloat 100))]) = inr e) ∧
    company_name e = "" ∧ project_name e = "".
Proof.
  eexists. split; [intros R; vm_compute; reflexivity|]. by split.
Qed.

Lemma company_and_project_name_required_witness :
  (∃ errs,
     FunnelEntry_new no_coercion (delete "company_name" minimal_kwargs)
       = inl (ValidationError "FunnelEntry" errs) ∧
     missing_error "company_name" ∈ errs) ∧
  (∃ e',
     FunnelEntry_new no_coercion
       (<["company_name" := PScalar (SStr "")]>
          (<["project_name" := PScalar (SStr "")]> minimal_kwargs)) = inr e' ∧
     company_name e' = "" ∧ project_name e' = "").
Proof.
  pose proof (company_and_project_name_required no_coercion)
    as (Hmissing & _ & _ & _ & Hempty).
  split.
  - apply Hmissing; [by left | by vm_compute].
  - eapply Hempty. by vm_compute.
Defined.

(** C8, as stated, fails: the row with the extra column [Region], which the
    mapping does not name, is mapped to a row that holds [Region]; the row
    without it is mapped to one that does not. *)
Lemma extra_column_changes_mapped_row :
  mapped_records default_mapping
    (mk_DataFrame [LStr "Company"; LStr "Region"]
       [[CVal (SStr "ABC Corp"); CVal (SStr "EMEA")]])
    = [dict_of_pairs [(LStr "company_name", CVal (SStr "ABC Corp"));
                      (LStr "Region", CVal (SStr "EMEA"))]] ∧
  mapped_records default_mapping
    (mk_DataFrame [LStr "Company"] [[CVal (SStr "ABC Corp")]])
    = [dict_of_pairs [(LStr "company_name", CVal (SStr "ABC Corp"))]] ∧
  dict_of_pairs [(LStr "company_name", CVal (SStr "ABC Corp"));
                 (LStr "Region", CVal (SStr "EMEA"))] !! LStr "Region"
    = Some (CVal (SStr "EMEA")) ∧
  dict_of_pairs [(LStr "company_name", CVal (SStr "ABC Corp"))]
    !! LStr "Region" = (None : option cell).
Proof. repeat split; by vm_compute. Qed.

Lemma unmapped_column_kept_witness :
  ∃ record record',
    mapped_records default_mapping
      (mk_DataFrame ([LStr "Company"] ++ []) [[CVal (SStr "ABC Corp")] ++ []])
      = [record] ∧
    mapped_records default_mapping
      (mk_DataFrame ([LStr "Company"] ++ LStr "Region" :: [])
         [[CVal (SStr "ABC Corp")] ++ CVal (SStr "EMEA") :: []])
      = [record'] ∧
    record' = <[LStr "Region" := CVal (SStr "EMEA")]> record ∧
    record !! LStr "Region" = None ∧
    record !! LStr "company_name" = Some (CVal (SStr "ABC Corp")) ∧
    record !! LStr "Company" = None.
Proof.
  destruct (unmapped_column_kept default_mapping [LStr "Company"] []
              [CVal (SStr "ABC Corp")] [] (LStr "Region")
              (CVal (SStr "EMEA")))
    as (record & record' & H1 & H2 & _ & _ & _ & Hall & Hrenamed);
    [by intros s [= <-] | reflexivity |].
  exists record, record'. split; [exact H1|]. split; [exact H2|].
  destruct Hall as [Hins Hnone].
  { apply (bool_decide_unpack _). by vm_compute. }
  split; [exact Hins|]. split; [exact Hnone|].
  destruct (Hrenamed 0%nat "Company" "company_name" (CVal (SStr "ABC Corp")))
    as (Htarget & _ & Hsource); [reflexivity..| |].
  { apply (bool_decide_unpack _). by vm_compute. }
  split; [exact Htarget|].
  apply Hsource; [discriminate|].
  intros s' _ Hne [= ->]%list_elem_of_singleton. done.
Defined.

(** C9 on the code: a folder that does not exist raises
    [FileNotFoundError]; a path that exists and is no directory raises a
    plain [Exception], which is no [ValueError]. *)
Theorem scan_of_a_file_raises_plain_exception :
  scan_folder_for_excel_files single_file "missing" "*.xlsx" =
    inl (FileNotFoundError
           "Folder not found: missing. Make sure the path is correct.") ∧
  scan_folder_for_excel_files single_file "report.xlsx" "*.xlsx" =
    inl (PyException
           "Error scanning folder for Excel files: Not a directory: report.xlsx") ∧
  is_ValueError
    (PyException
       "Error scanning folder for Excel files: Not a directory: report.xlsx")
    = false.
Proof. repeat split. Qed.

(** C10, as stated, fails: a record with a key that is no string, as a
    column with the header 2024 gives, raises on that key alone; restricted
    to the declared names it gives an entry.  With such a column in the
    sheet, the row fails. *)
Lemma numeric_key_fails_construction :
  ∃ e,
    FunnelEntry_call no_coercion
      (cleaned_record
         (filter (λ kv, kv.1 ∈ LStr <$> FunnelEntry_fields)
            (dict_of_pairs
               [(LStr "company_name", CVal (SStr "XYZ Ltd"));
                (LStr "project_name", CVal (SStr "Mobile App"));
                (LStr "value", CVal (SFloat 75000));
                (LInt 2024, CVal (SFloat 1))]))) = inr e ∧
    FunnelEntry_call no_coercion
      (cleaned_record
         (dict_of_pairs
            [(LStr "company_name", CVal (SStr "XYZ Ltd"));
             (LStr "project_name", CVal (SStr "Mobile App"));
             (LStr "value", CVal (SFloat 75000));
             (LInt 2024, CVal (SFloat 1))]))
      = inl (TypeError "keywords must be strings") ∧
    extract_validated_data no_coercion
      (workbook
         (mk_DataFrame [LStr "Company"; LStr "Project"; LStr "Value"; LInt 2024]
            [[CVal (SStr "XYZ Ltd"); CVal (SStr "Mobile App");
              CVal (SFloat 75000); CVal (SFloat 1)]]))
      (date 2025 4 16) "sample_funnel.xlsx" (Some "Sheet1") None
      = inl (ValueError
               "Data validation errors: Row 2: keywords must be strings").
Proof. eexists. repeat split; by vm_compute. Qed.

Lemma undeclared_keys_ignored_witness :
  FunnelEntry_call no_coercion
    (<[LStr "custom_fields.probability_pct" := PScalar (SFloat 80)]>
       (dict_of_pairs
          [(LStr "company_name", PScalar (SStr "XYZ Ltd"));
           (LStr "project_name", PScalar (SStr "Mobile App"));
           (LStr "value", PScalar (SFloat 75000))]))
  = FunnelEntry_call no_coercion
      (dict_of_pairs
         [(LStr "company_name", PScalar (SStr "XYZ Ltd"));
          (LStr "project_name", PScalar (SStr "Mobile App"));
          (LStr "value", PScalar (SFloat 75000))]) ∧
  FunnelEntry_call no_coercion
    (<[LInt 2024 := PScalar (SFloat 1)]>
       (dict_of_pairs
          [(LStr "company_name", PScalar (SStr "XYZ Ltd"));
           (LStr "project_name", PScalar (SStr "Mobile App"));
           (LStr "value", PScalar (SFloat 75000))]))
  = inl (TypeError "keywords must be strings").
Proof.
  pose proof (undeclared_keys_ignored no_coercion)
    as (_ & _ & Hignored & _ & Hkey & _).
  split.
  - apply Hignored; [|discriminate].
    apply (bool_decide_unpack _). by vm_compute.
  - apply (Hkey _ (LInt 2024) (PScalar (SFloat 1)));
      [apply lookup_insert_eq | discriminate].
Defined.

(** * Further properties of the models *)

Section ModelProperties.
Context (R : py_runtime).

(** ** The status *)

Lemma status_of_value_Some (v : pyval) (s : ProbabilityStatus) :
  status_of_value v = Some s → v = PScalar (SStr (status_value s)).
Proof.
  destruct v as [[| | | |text|]| |]; try discriminate.
  unfold status_of_value.
  destruct (list_find (λ m, status_value m = text) all_statuses)
    as [[i m]|] eqn:Efind; [|discriminate].
  intros Hs. injection Hs as Hs. simpl in Hs. subst m.
  apply list_find_Some in Efind as (_ & <- & _).
  reflexivity.
Qed.

Lemma status_rejected (kwargs : gmap string pyval) (errs : list error_item) :
  optional_field None (validate_status) no_post (kwargs !! "status")
    = Invalid errs →
  ∃ all,
    FunnelEntry_new R kwargs = inl (ValidationError "FunnelEntry" all) ∧
    errs ⊆ all.
Proof.
  intros Hf. destruct (FunnelEntry_new R kwargs) as [ex|e] eqn:Enew.
  - apply FunnelEntry_new_inl in Enew. rewrite Hf in Enew.
    eexists. split; [by rewrite Enew|].
    intros x Hx. rewrite !elem_of_app. do 5 right. left. exact Hx.
  - apply FunnelEntry_new_inr in Enew.
    destruct Enew as (_&_&_&_&_&Hs&_). rewrite Hf in Hs. discriminate.
Qed.

(** X1. The status of an entry is one of the five members, given by its exact
    value: every member is found again from its value, nothing else is a
    status, a construction with any other value fails with the enumeration
    error, and an entry that has a status was given that member's value. *)
Theorem status_is_a_member_value :
  (∀ s, status_of_value (PScalar (SStr (status_value s))) = Some s) ∧
  (∀ v s, status_of_value v = Some s → v = PScalar (SStr (status_value s))) ∧
  (∀ kwargs v,
     kwargs !! "status" = Some v → v ≠ PScalar SNone →
     (∀ s, v ≠ PScalar (SStr (status_value s))) →
     ∃ errs,
       FunnelEntry_new R kwargs = inl (ValidationError "FunnelEntry" errs) ∧
       enum_error "status" ∈ errs) ∧
  (∀ kwargs e s,
     FunnelEntry_new R kwargs = inr e → status e = Some s →
     kwargs !! "status" = Some (PScalar (SStr (status_value s)))).
Proof.
  split; [by intros []|]. split; [exact status_of_value_Some|]. split.
  - intros kwargs v Hk Hnone Hv.
    assert (Hno : status_of_value v = None).
    { destruct (status_of_value v) as [s|] eqn:E; [|done].
      apply status_of_value_Some in E. by destruct (Hv s). }
    destruct (status_rejected kwargs [enum_error "status"]) as (all&?&Hsub).
    { rewrite Hk. unfold optional_field, validate_status. rewrite Hno.
      by destruct v as [[]| |]. }
    exists all. split; [done|]. apply Hsub, list_elem_of_here.
  - intros kwargs e s He Hs. apply FunnelEntry_new_inr in He.
    destruct He as (_&_&_&_&_&Hf&_). rewrite Hs in Hf.
    unfold optional_field, validate_status in Hf.
    destruct (kwargs !! "status") as [v|]; [|discriminate].
    destruct (status_of_value v) as [s'|] eqn:E.
    + apply status_of_value_Some in E. subst v. simpl in Hf.
      injection Hf as ->. reflexivity.
    + destruct v as [[]| |]; discriminate.
Qed.

(** ** Contacts *)

Lemma Contact_new_inr (kwargs : gmap string pyval) (c : Contact) :
  Contact_new R kwargs = inr c ↔
    required_field "name" (validate_str R "name") (kwargs !! "name")
      = Valid (name c) ∧
    optional_field None (validate_str R "email") validate_email
      (kwargs !! "email") = Valid (email c) ∧
    optional_field None (validate_str R "phone") no_post (kwargs !! "phone")
      = Valid (phone c).
Proof.
  unfold Contact_new. cbv zeta.
  destruct (required_field _ _ _) as [n|]; simpl;
    [|split; [discriminate | by intros (?&_)]].
  destruct (optional_field _ _ validate_email _) as [m|]; simpl;
    [|split; [discriminate | by intros (_&?&_)]].
  destruct (optional_field _ _ no_post _) as [p|]; simpl;
    [|split; [discriminate | by intros (_&_&?)]].
  destruct c as [n' m' p']. simpl. split.
  - by intros [= -> -> ->].
  - by intros ([= ->]&[= ->]&[= ->]).
Qed.

Lemma Contact_new_inl (kwargs : gmap string pyval) (errs : list error_item) :
  Contact_new R kwargs = inl errs →
  errs =
    outcome_errors
      (required_field "name" (validate_str R "name") (kwargs !! "name")) ++
    outcome_errors
      (optional_field None (validate_str R "email") validate_email
         (kwargs !! "email")) ++
    outcome_errors
      (optional_field None (validate_str R "phone") no_post
         (kwargs !! "phone")).
Proof.
  unfold Contact_new. cbv zeta.
  destruct (required_field _ _ _) as [n|e1],
    (optional_field _ _ validate_email _) as [m|e2],
    (optional_field _ _ no_post _) as [p|e3]; simpl;
    try discriminate; intros [= <-];
    by rewrite ?app_nil_r, <- ?app_assoc.
Qed.

(** How an optional field comes to be valid. *)
Lemma optional_field_Valid {T} (default : option T)
    (validate : pyval → outcome T) (post : option T → outcome (option T))
    (arg : option pyval) (m : option T) :
  optional_field default validate post arg = Valid m →
  (arg = None ∧ m = default) ∨
  (arg = Some (PScalar SNone) ∧ post None = Valid m) ∨
  (∃ v t, arg = Some v ∧ validate v = Valid t ∧ post (Some t) = Valid m).
Proof.
  unfold optional_field. destruct arg as [v|].
  - intros Hf.
    assert (Hcases : v = PScalar SNone ∨
              (match validate v with
               | Valid t => post (Some t)
               | Invalid errs => Invalid errs
               end) = Valid m).
    { destruct v as [[]| |]; auto. }
    destruct Hcases as [->|Hv]; [right; left; by split|].
    right. right. destruct (validate v) as [t|] eqn:Ev; [|discriminate].
    by exists v, t.
  - intros [= <-]. by left.
Qed.

Lemma email_field_Valid (arg : option pyval) (m : option string) (s : string) :
  optional_field None (validate_str R "email") validate_email arg = Valid m →
  m = Some s → str_contains "@" s = true.
Proof.
  intros Hf ->.
  apply optional_field_Valid in Hf as [[_ ?]|[[_ Hv]|(v&t&_&_&Hv)]];
    try discriminate.
  unfold validate_email in Hv.
  destruct (str_contains "@" t) eqn:Eat; simpl in Hv; [|discriminate].
  by injection Hv as ->.
Qed.

(** X2. A contact needs a name, and its email, when it has one, holds an at
    sign: a constructed contact has one in its email; one without is
    rejected with [Invalid email format]; a missing name is rejected; a name
    alone gives a contact without email and phone. *)
Theorem contact_email_holds_at_sign :
  (∀ kwargs c s,
     Contact_new R kwargs = inr c → email c = Some s →
     str_contains "@" s = true) ∧
  (∀ kwargs v s,
     kwargs !! "email" = Some v → str_validator R v = Some s →
     str_contains "@" s = false →
     ∃ errs,
       Contact_new R kwargs = inl errs ∧
       value_error ["email"] "Invalid email format" ∈ errs) ∧
  (∀ kwargs,
     kwargs !! "name" = None →
     ∃ errs, Contact_new R kwargs = inl errs ∧ missing_error "name" ∈ errs) ∧
  (∀ kwargs n,
     kwargs !! "name" = Some (PScalar (SStr n)) →
     kwargs !! "email" = None → kwargs !! "phone" = None →
     Contact_new R kwargs = inr (mk_Contact n None None)).
Proof.
  split; [|split; [|split]].
  - intros kwargs c s Hc Hs. apply Contact_new_inr in Hc as (_&Hm&_).
    by eapply email_field_Valid.
  - intros kwargs v s Hk Hv Hat.
    assert (Hf : optional_field None (validate_str R "email") validate_email
                   (kwargs !! "email")
                 = Invalid [value_error ["email"] "Invalid email format"]).
    { rewrite Hk. unfold optional_field, validate_str. rewrite Hv. simpl.
      rewrite Hat. simpl. by destruct v as [[]| |]. }
    destruct (Contact_new R kwargs) as [errs|c] eqn:Enew.
    + exists errs. split; [done|]. apply Contact_new_inl in Enew.
      rewrite Enew, Hf, !elem_of_app. right. left. apply list_elem_of_here.
    + apply Contact_new_inr in Enew as (_&Hm&_). rewrite Hf in Hm.
      discriminate.
  - intros kwargs Hk.
    destruct (Contact_new R kwargs) as [errs|c] eqn:Enew.
    + exists errs. split; [done|]. apply Contact_new_inl in Enew.
      rewrite Enew, Hk, !elem_of_app. left. apply list_elem_of_here.
    + apply Contact_new_inr in Enew as (Hn&_). rewrite Hk in Hn.
      discriminate.
  - intros kwargs n Hn Hm Hp. apply Contact_new_inr.
    rewrite Hn, Hm, Hp. by repeat split.
Qed.

Lemma validate_contacts_Valid (v : pyval) (cs : list Contact) :
  validate_contacts R v = Valid cs →
  ∃ items,
    v = PList items ∧
    Forall2 (λ o c, o = Valid c) (imap (validate_contact R) items) cs.
Proof.
  destruct v as [|items|]; try discriminate. simpl.
  destruct (mapM _ _) as [cs'|] eqn:Em; [|discriminate].
  intros [= <-]. exists items. split; [done|].
  apply mapM_Some in Em. eapply Forall2_impl; [exact Em|].
  intros [c'|] c; by intros [= ->].
Qed.

Lemma validate_contact_Valid (i : nat) (v : pyval) (c : Contact) :
  validate_contact R i v = Valid c →
  ∃ kwargs, dict_validator R v = Some kwargs ∧ Contact_new R kwargs = inr c.
Proof.
  unfold validate_contact.
  destruct (dict_validator R v) as [kwargs|]; [|discriminate].
  destruct (Contact_new R kwargs) as [|c'] eqn:Ec; [discriminate|].
  intros [= <-]. by exists kwargs.
Qed.

Lemma contacts_rejected (kwargs : gmap string pyval) (errs : list error_item) :
  optional_field (Some []) (validate_contacts R) no_post
    (kwargs !! "contacts") = Invalid errs →
  ∃ all,
    FunnelEntry_new R kwargs = inl (ValidationError "FunnelEntry" all) ∧
    errs ⊆ all.
Proof.
  intros Hf. destruct (FunnelEntry_new R kwargs) as [ex|e] eqn:Enew.
  - apply FunnelEntry_new_inl in Enew. rewrite Hf in Enew.
    eexists. split; [by rewrite Enew|].
    intros x Hx. rewrite !elem_of_app. do 8 right. left. exact Hx.
  - apply FunnelEntry_new_inr in Enew.
    destruct Enew as (_&_&_&_&_&_&_&_&Hc&_). rewrite Hf in Hc. discriminate.
Qed.

(** X3. The contacts of an entry: none passed gives the empty list and [None]
    stays [None]; a list gives one contact per item, in order, each built
    from its item as a [Contact], so that every email of a constructed
    entry holds an at sign; a value that is no list is rejected. *)
Theorem entry_contacts_validated :
  (∀ kwargs e,
     kwargs !! "contacts" = None → FunnelEntry_new R kwargs = inr e →
     contacts e = Some []) ∧
  (∀ kwargs e,
     kwargs !! "contacts" = Some (PScalar SNone) →
     FunnelEntry_new R kwargs = inr e → contacts e = None) ∧
  (∀ kwargs e items,
     kwargs !! "contacts" = Some (PList items) →
     FunnelEntry_new R kwargs = inr e →
     ∃ cs,
       contacts e = Some cs ∧ length cs = length items ∧
       ∀ i c, cs !! i = Some c →
         ∃ item fields,
           items !! i = Some item ∧ dict_validator R item = Some fields ∧
           Contact_new R fields = inr c) ∧
  (∀ kwargs e cs c s,
     FunnelEntry_new R kwargs = inr e → contacts e = Some cs →
     c ∈ cs → email c = Some s → str_contains "@" s = true) ∧
  (∀ kwargs s,
     kwargs !! "contacts" = Some (PScalar s) → s ≠ SNone →
     ∃ errs,
       FunnelEntry_new R kwargs = inl (ValidationError "FunnelEntry" errs) ∧
       list_error "contacts" ∈ errs).
Proof.
  assert (Hlist : ∀ kwargs e items,
    kwargs !! "contacts" = Some (PList items) →
    FunnelEntry_new R kwargs = inr e →
    ∃ cs, contacts e = Some cs ∧
          Forall2 (λ o c, o = Valid c) (imap (validate_contact R) items) cs).
  { intros kwargs e items Hk He. apply FunnelEntry_new_inr in He.
    destruct He as (_&_&_&_&_&_&_&_&Hc&_). rewrite Hk in Hc.
    apply optional_field_Valid in Hc
      as [[? _]|[[? _]|(v&cs&[= <-]&Hv&[= Hcs])]]; try discriminate.
    exists cs. split; [done|].
    apply validate_contacts_Valid in Hv as (items'&[= <-]&Hall). done. }
  assert (Hitem : ∀ items cs i c,
    Forall2 (λ o c, o = Valid c) (imap (validate_contact R) items) cs →
    cs !! i = Some c →
    ∃ item fields,
      items !! i = Some item ∧ dict_validator R item = Some fields ∧
      Contact_new R fields = inr c).
  { intros items cs i c Hall Hi.
    destruct (Forall2_lookup_r _ _ _ _ _ Hall Hi) as (o&Ho&->).
    apply list_lookup_imap_Some in Ho as (item&Hitem&Ho). symmetry in Ho.
    apply validate_contact_Valid in Ho as (fields&?&?).
    by exists item, fields. }
  split; [|split; [|split; [|split]]].
  - intros kwargs e Hk He. apply FunnelEntry_new_inr in He.
    destruct He as (_&_&_&_&_&_&_&_&Hc&_). rewrite Hk in Hc.
    by injection Hc.
  - intros kwargs e Hk He. apply FunnelEntry_new_inr in He.
    destruct He as (_&_&_&_&_&_&_&_&Hc&_). rewrite Hk in Hc.
    by injection Hc.
  - intros kwargs e items Hk He.
    destruct (Hlist kwargs e items Hk He) as (cs&Hcs&Hall).
    exists cs. split; [done|]. split.
    + apply Forall2_length in Hall. by rewrite length_imap in Hall.
    + intros i c. by apply Hitem.
  - intros kwargs e cs c s He Hcs Hin Hs.
    pose proof He as He'. apply FunnelEntry_new_inr in He'.
    destruct He' as (_&_&_&_&_&_&_&_&Hc&_). rewrite Hcs in Hc.
    apply optional_field_Valid in Hc
      as [[_ [= ->]]|[[_ ?]|(v&cs'&Hk&Hv&[= <-])]]; try discriminate.
    { by apply elem_of_nil in Hin. }
    apply validate_contacts_Valid in Hv as (items&->&Hall).
    apply list_elem_of_lookup in Hin as (i&Hi).
    destruct (Hitem items cs' i c Hall Hi) as (item&fields&_&_&Hnew).
    apply Contact_new_inr in Hnew as (_&Hm&_).
    by eapply email_field_Valid.
  - intros kwargs s Hk Hs.
    destruct (contacts_rejected kwargs [list_error "contacts"])
      as (all&?&Hsub).
    { rewrite Hk. by destruct s. }
    exists all. split; [done|]. apply Hsub, list_elem_of_here.
Qed.
End ModelProperties.

(** * Further properties of the extraction *)

(** ** Blank cells *)

Lemma cleaned_record_lookup (record : gmap label cell) (k : label) :
  cleaned_record record !! k =
  record !! k ≫= λ c, match c with
                      | CVal s => if pd_notna c then Some (PScalar s) else None
                      | CNaT => None
                      end.
Proof. unfold cleaned_record. apply lookup_omap. Qed.

(** X5. A cell that [pd.notna] rejects ([None], NaN, [NaT]) is as if its column
    were not there: the cleaned record does not bind it and the entry is
    built as without it; what the cleaned record binds is the scalar of a
    cell of the record, never [None] and never NaN. *)
Theorem blank_cells_are_absent :
  (∀ record k c,
     pd_notna c = false →
     cleaned_record (<[k := c]> record) = delete k (cleaned_record record)) ∧
  (∀ R record k c,
     pd_notna c = false →
     FunnelEntry_call R (cleaned_record (<[k := c]> record)) =
     FunnelEntry_call R (cleaned_record (delete k record))) ∧
  (∀ record k v,
     cleaned_record record !! k = Some v →
     ∃ s, v = PScalar s ∧ record !! k = Some (CVal s) ∧ s ≠ SNone ∧
          ∀ x, s = SFloat x → PrimFloat.is_nan x = false) ∧
  (∀ record k s,
     record !! k = Some (CVal s) → pd_notna (CVal s) = true →
     cleaned_record record !! k = Some (PScalar s)).
Proof.
  assert (Hins : ∀ record k c,
    pd_notna c = false →
    cleaned_record (<[k := c]> record) = delete k (cleaned_record record)).
  { intros record k c Hc. unfold cleaned_record.
    apply omap_insert_None. destruct c as [|s]; [done|]. by rewrite Hc. }
  split; [exact Hins|]. split; [|split].
  - intros R record k c Hc. rewrite (Hins record k c Hc).
    unfold cleaned_record. by rewrite omap_delete.
  - intros record k v. rewrite cleaned_record_lookup.
    destruct (record !! k) as [[|s]|]; simpl; try discriminate.
    destruct s as [| | |x| |]; simpl; try discriminate;
      try (intros [= <-]; eexists; repeat split; done).
    destruct (PrimFloat.is_nan x) eqn:En; simpl; [discriminate|].
    intros [= <-]. eexists. repeat split; try done. by intros ? [= <-].
  - intros record k s Hk Hn. rewrite cleaned_record_lookup, Hk. simpl.
    simpl in Hn. by rewrite Hn.
Qed.

(** ** The column mapping, continued *)

(** X6. The mapping is read at the labels of the sheet only, so that an entry
    of the mapping for a column the sheet does not have changes nothing and
    raises nothing; there is one record per row; and when the labels after
    renaming are distinct, the cell of a column is found in the record of
    its row under the target that the mapping gives for the label of the
    column, and under the label itself when the mapping has none for it. *)
Theorem mapping_reads_sheet_columns :
  (∀ mapping mapping' df,
     (∀ s, LStr s ∈ columns df → mapping !! s = mapping' !! s) →
     mapped_records mapping df = mapped_records mapping' df) ∧
  (∀ mapping df, length (mapped_records mapping df) = length (rows df)) ∧
  (∀ mapping df i row j c x,
     NoDup (rename_label mapping <$> columns df) →
     rows df !! i = Some row → length row = length (columns df) →
     columns df !! j = Some c → row !! j = Some x →
     ∃ record,
       mapped_records mapping df !! i = Some record ∧
       (∀ s target,
          c = LStr s → mapping !! s = Some target →
          record !! LStr target = Some x) ∧
       ((∀ s, c = LStr s → mapping !! s = None) → record !! c = Some x)).
Proof.
  split; [|split].
  - intros mapping mapping' df Hsame. rewrite !mapped_records_rows.
    assert (Hcols : rename_label mapping <$> columns df
                    = rename_label mapping' <$> columns df).
    { apply list_fmap_ext. intros i c Hc. destruct c as [s| |]; [|done..].
      simpl. rewrite Hsame; [done|]. by eapply list_elem_of_lookup_2. }
    by rewrite Hcols.
  - intros mapping df. rewrite mapped_records_rows. apply length_fmap.
  - intros mapping df i row j c x Hnd Hrow Hlen Hc Hx.
    rewrite mapped_records_rows, list_lookup_fmap, Hrow. simpl.
    eexists. split; [reflexivity|].
    assert (Hfound :
      dict_of_pairs (zip (rename_label mapping <$> columns df) row)
        !! rename_label mapping c = Some x).
    { apply dict_of_pairs_lookup_NoDup; [by apply zip_fst_NoDup|].
      apply list_elem_of_lookup. exists j.
      apply lookup_zip_with_Some. exists (rename_label mapping c), x.
      split; [done|]. split; [|done].
      by rewrite list_lookup_fmap, Hc. }
    split.
    + intros s target -> Hs.
      by rewrite (rename_label_mapped mapping s target Hs) in Hfound.
    + intros Hnone. by rewrite (rename_label_unmapped mapping c Hnone) in Hfound.
Qed.

(** ** The batch *)

Section BatchProperties.
Context (R : py_runtime).

Lemma valid_rows_cons (record : gmap label cell)
    (rest : list (gmap label cell)) :
  valid_rows R (record :: rest) =
  match FunnelEntry_call R (cleaned_record record) with
  | inr entry => entry :: valid_rows R rest
  | inl _ => valid_rows R rest
  end.
Proof.
  unfold valid_rows. simpl.
  by destruct (FunnelEntry_call R (cleaned_record record)).
Qed.

Lemma row_failures_from_cons (i : nat) (record : gmap label cell)
    (rest : list (gmap label cell)) :
  row_failures_from R i (record :: rest) =
  match FunnelEntry_call R (cleaned_record record) with
  | inl e => (i, e) :: row_failures_from R (S i) rest
  | inr _ => row_failures_from R (S i) rest
  end.
Proof.
  unfold row_failures_from. simpl.
  by destruct (FunnelEntry_call R (cleaned_record record)).
Qed.

(** Every record validates or fails: the entries and the failures of a
    batch add up to its records. *)
Lemma valid_rows_and_failures (records : list (gmap label cell)) (i : nat) :
  length (valid_rows R records) + length (row_failures_from R i records)
  = length records.
Proof.
  revert i. induction records as [|record rest IH]; intros i; [done|].
  specialize (IH (S i)).
  rewrite valid_rows_cons, row_failures_from_cons.
  destruct (FunnelEntry_call R (cleaned_record record)); simpl; lia.
Qed.

(** Without failures the entries are those of the records, one by one. *)
Lemma valid_rows_all (records : list (gmap label cell)) (i : nat) :
  row_failures_from R i records = [] →
  Forall2 (λ record entry,
             FunnelEntry_call R (cleaned_record record) = inr entry)
    records (valid_rows R records).
Proof.
  revert i. induction records as [|record rest IH]; intros i.
  - constructor.
  - rewrite valid_rows_cons, row_failures_from_cons.
    destruct (FunnelEntry_call R (cleaned_record record)) eqn:E;
      [discriminate|].
    intros Hrest. constructor; [done|]. by apply (IH (S i)).
Qed.

(** When every record fails, there is a failure per record. *)
Lemma row_failures_all (records : list (gmap label cell)) (i : nat) :
  Forall (λ record,
            ∃ e, FunnelEntry_call R (cleaned_record record) = inl e) records →
  length (row_failures_from R i records) = length records.
Proof.
  intros Hall.
  assert (Hnone : valid_rows R records = []).
  { induction Hall as [|record rest [e He] _ IH]; [done|].
    by rewrite valid_rows_cons, He. }
  pose proof (valid_rows_and_failures records i) as Hsum.
  rewrite Hnone in Hsum. exact Hsum.
Qed.

Lemma required_field_missing (kwargs : gmap string pyval) (fname : string) :
  fname ∈ ["company_name"; "project_name"; "value"] →
  kwargs !! fname = None →
  ∃ e, FunnelEntry_new R kwargs = inl e.
Proof.
  intros Hf Hk. destruct (FunnelEntry_new R kwargs) as [e|entry] eqn:Enew;
    [by exists e|].
  apply FunnelEntry_new_inr in Enew. destruct Enew as (_&Hc&Hp&Hv&_).
  apply elem_of_cons in Hf as [->|Hf]; [by rewrite Hk in Hc|].
  apply elem_of_cons in Hf as [->|Hf]; [by rewrite Hk in Hp|].
  apply list_elem_of_singleton in Hf as ->. by rewrite Hk in Hv.
Qed.

Lemma required_key_missing (kwargs : gmap label pyval) (fname : string) :
  fname ∈ ["company_name"; "project_name"; "value"] →
  kwargs !! LStr fname = None →
  ∃ e, FunnelEntry_call R kwargs = inl e.
Proof.
  intros Hf Hk. unfold FunnelEntry_call.
  destruct (bool_decide _); [|by eexists].
  destruct (kwargs !! LStr "__pydantic_self__"); [by eexists|].
  apply (required_field_missing _ fname Hf).
  by rewrite keyword_arguments_lookup.
Qed.

(** X7. A sheet that, after renaming, has no column for the company name, the
    project name or the value fails on every row: with at least one row
    [extract_validated_data] raises the aggregate error with one message
    per row. *)
Theorem missing_required_column_fails_every_row (env : environment)
    (now : datetime) (file_path : string) (sheet_name : option string)
    (mapping : option (gmap string string)) (df : DataFrame)
    (fname : string) :
  extract_data env file_path sheet_name = inr df →
  rows df ≠ [] →
  fname ∈ ["company_name"; "project_name"; "value"] →
  LStr fname ∉ rename_label (default default_mapping mapping)
                 <$> columns df →
  ∃ messages,
    extract_validated_data R env now file_path sheet_name mapping =
      inl (ValueError
             ("Data validation errors: " +:+ str_join "; " messages)) ∧
    length messages = length (rows df).
Proof.
  intros Hread Hrows Hf Hcol.
  set (m := default default_mapping mapping) in *.
  assert (Hall : Forall (λ record,
            ∃ e, FunnelEntry_call R (cleaned_record record) = inl e)
            (mapped_records m df)).
  { rewrite mapped_records_rows. apply Forall_fmap, Forall_forall.
    intros row _. simpl. apply (required_key_missing _ fname Hf).
    rewrite cleaned_record_lookup, dict_of_pairs_lookup_None; [done|].
    intros Hin. apply Hcol. by eapply zip_fst_subseteq. }
  pose proof (row_failures_all _ 0 Hall) as Hlen.
  fold (row_failures R (mapped_records m df)) in Hlen.
  assert (Hrec : length (mapped_records m df) = length (rows df))
    by (rewrite mapped_records_rows; apply length_fmap).
  exists ((λ p, row_error p.1 p.2) <$> row_failures R (mapped_records m df)).
  split; [|by rewrite length_fmap, Hlen].
  rewrite (extract_validated_data_read _ _ _ _ _ _ _ Hread). cbv zeta.
  fold m. destruct (row_failures R (mapped_records m df)) eqn:E; [|done].
  simpl in Hlen. rewrite Hrec in Hlen. by destruct (rows df).
Qed.

(** X8. Once the sheet is read, a dataset is returned exactly when no record
    fails; it then holds one entry per row, the entry of that row, in the
    order of the rows, the time of the call, the path and the sheet name
    that were passed, and as total the sum of the values, or no total when
    the sheet has no row. *)
Theorem dataset_returned_iff_no_row_fails (env : environment)
    (now : datetime) (file_path : string) (sheet : option string)
    (mapping : option (gmap string string)) (df : DataFrame) :
  extract_data env file_path sheet = inr df →
  let records := mapped_records (default default_mapping mapping) df in
  (row_failures R records = [] ↔
   ∃ data,
     extract_validated_data R env now file_path sheet mapping = inr data) ∧
  (∀ data,
     extract_validated_data R env now file_path sheet mapping = inr data →
     length (entries data) = length (rows df) ∧
     Forall2 (λ record entry,
                FunnelEntry_call R (cleaned_record record) = inr entry)
       records (entries data) ∧
     extraction_date data = now ∧ source_file data = file_path ∧
     sheet_name data = sheet ∧
     total_value data =
       match entries data with
       | [] => None
       | _ :: _ => Some (py_sum (value <$> entries data))
       end).
Proof.
  intros Hread records.
  rewrite (extract_validated_data_read _ _ _ _ _ _ _ Hread). cbv zeta.
  fold records. split.
  - destruct (row_failures R records) eqn:E.
    + split; [intros _; by eexists | done].
    + split; [done | by intros [data ?]].
  - intros data. destruct (row_failures R records) eqn:E; [|done].
    intros [= <-]. simpl.
    pose proof (valid_rows_all records 0 E) as Hall.
    split; [|done].
    apply Forall2_length in Hall. rewrite <- Hall. unfold records.
    rewrite mapped_records_rows. apply length_fmap.
Qed.

Lemma extract_data_inl (env : environment) (file_path : string)
    (sheet : option string) (e : exn) :
  extract_data env file_path sheet = inl e →
  e = FileNotFoundError
        ("Excel file not found: " +:+ file_path +:+
         ". Make sure the path is correct.") ∨
  e = PermissionError
        ("Cannot access " +:+ file_path +:+
         ". Please check your VPN connection and try again.") ∨
  (∃ e', path_exists env file_path = true ∧
         read_excel env file_path sheet = inl e' ∧
         e = PyException
               ("Error extracting data from Excel file: " +:+ str_exn e')) ∨
  (∃ sheets, path_exists env file_path = true ∧ sheet = None ∧
             read_sheets env file_path = inr sheets ∧
             e = PyException
                   "Error extracting data from Excel file: 'dict' object has no attribute 'shape'").
Proof.
  unfold extract_data.
  destruct (path_exists env file_path); simpl; [|intros [= <-]; by left].
  destruct (read_excel env file_path sheet) as [e'|[df|sheets]] eqn:Eread.
  - destruct e'; intros [= <-]; eauto 8.
  - discriminate.
  - intros [= <-]. do 3 right. exists sheets.
    destruct sheet as [name|]; simpl in Eread.
    + by destruct (read_sheet env file_path name).
    + destruct (read_sheets env file_path); by simplify_eq.
Qed.

(** X9. What reaches the caller of [extract_validated_data] is the aggregate
    [ValueError], with at least one message, or a plain [Exception] that
    wraps the text of what [extract_data] raised: a missing workbook or a
    refused access does not arrive as [FileNotFoundError] or
    [PermissionError]. *)
Theorem extract_validated_data_raises (env : environment) (now : datetime)
    (file_path : string) (sheet : option string)
    (mapping : option (gmap string string)) (e : exn) :
  extract_validated_data R env now file_path sheet mapping = inl e →
  (∃ messages,
     messages ≠ [] ∧
     e = ValueError ("Data validation errors: " +:+ str_join "; " messages)) ∨
  (∃ e',
     extract_data env file_path sheet = inl e' ∧
     e = PyException
           ("Error extracting and validating data: " +:+ str_exn e')).
Proof.
  destruct (extract_data env file_path sheet) as [e'|df] eqn:Hread.
  - intros He. right. exists e'. split; [done|].
    unfold extract_validated_data in He. rewrite Hread in He.
    cbv zeta in He.
    assert (Hclass : is_ValueError e' = false).
    { apply extract_data_inl in Hread
        as [->|[->|[(?&_&_&->)|(?&_&_&_&->)]]]; done. }
    rewrite Hclass in He. simpl in He. congruence.
  - rewrite (extract_validated_data_read _ _ _ _ _ _ _ Hread). cbv zeta.
    destruct (row_failures R _) as [|f fs]; [done|].
    intros He. left. exists ((λ p, row_error p.1 p.2) <$> (f :: fs)).
    split; [done|]. by injection He as <-.
Qed.
End BatchProperties.

(** ** Reading the sheet and scanning a folder *)

(** X10. [extract_data] returns a frame exactly when the file exists, a sheet
    is named and pandas returns the frame of that sheet, and it returns
    that frame.  Without a sheet name pandas returns the dict of all
    sheets, whose [shape] cannot be logged: the call never returns then,
    and raises a plain [Exception] about the missing attribute when the
    workbook could be read.  When the file does not exist nothing is read
    and [FileNotFoundError] is raised; any failure arrives as
    [FileNotFoundError], [PermissionError] or a plain [Exception] with a
    text of the extractor's own around the text of what was raised. *)
Theorem extract_data_outcomes (env : environment) (file_path : string)
    (sheet : option string) :
  (path_exists env file_path = false →
   extract_data env file_path sheet =
     inl (FileNotFoundError
            ("Excel file not found: " +:+ file_path +:+
             ". Make sure the path is correct."))) ∧
  (∀ df,
     extract_data env file_path sheet = inr df ↔
     path_exists env file_path = true ∧
     ∃ name, sheet = Some name ∧ read_sheet env file_path name = inr df) ∧
  (∀ sheets,
     sheet = None → path_exists env file_path = true →
     read_sheets env file_path = inr sheets →
     extract_data env file_path sheet =
       inl (PyException
              "Error extracting data from Excel file: 'dict' object has no attribute 'shape'")) ∧
  (∀ e,
     extract_data env file_path sheet = inl e →
     e = FileNotFoundError
           ("Excel file not found: " +:+ file_path +:+
            ". Make sure the path is correct.") ∨
     e = PermissionError
           ("Cannot access " +:+ file_path +:+
            ". Please check your VPN connection and try again.") ∨
     (∃ e', path_exists env file_path = true ∧
            read_excel env file_path sheet = inl e' ∧
            e = PyException
                  ("Error extracting data from Excel file: " +:+
                   str_exn e')) ∨
     (∃ sheets, path_exists env file_path = true ∧ sheet = None ∧
                read_sheets env file_path = inr sheets ∧
                e = PyException
                      "Error extracting data from Excel file: 'dict' object has no attribute 'shape'")).
Proof.
  split; [|split; [|split]].
  - intros He. unfold extract_data. by rewrite He.
  - intros df. unfold extract_data.
    destruct (path_exists env file_path); simpl;
      [|split; [discriminate | by intros [? _]]].
    destruct sheet as [name|]; simpl.
    + destruct (read_sheet env file_path name) as [e|df'] eqn:Eread.
      * split; [by destruct e|]. intros (_&?&[= <-]&Hdf). congruence.
      * split.
        -- intros [= <-]. split; [done|]. by exists name.
        -- intros (_&?&[= <-]&Hdf). congruence.
    + split; [|by intros (_&?&?&_)].
      by destruct (read_sheets env file_path) as [[]|].
  - intros sheets -> Hex Hread. unfold extract_data. rewrite Hex. simpl.
    by rewrite Hread.
  - apply extract_data_inl.
Qed.

(** X11. [scan_folder_for_excel_files] returns a list exactly when the path
    exists and is a directory, and the list is then what [glob] found, as
    [glob] gives it; whatever it raises is no [ValueError]. *)
Theorem scan_returns_glob_of_a_directory (env : environment)
    (folder_path pattern : string) :
  (∀ file_paths,
     scan_folder_for_excel_files env folder_path pattern = inr file_paths ↔
     path_exists env folder_path = true ∧
     path_isdir env folder_path = true ∧
     file_paths = glob env folder_path pattern) ∧
  (∀ e,
     scan_folder_for_excel_files env folder_path pattern = inl e →
     is_ValueError e = false).
Proof.
  unfold scan_folder_for_excel_files.
  destruct (path_exists env folder_path), (path_isdir env folder_path);
    simpl; split; try (intros l; split; [discriminate | by intros (?&?&?)]);
    try (by intros e [= <-]).
  intros l. split; [by intros [= <-] | by intros (_&_&->)].
Qed.

(** * Sheet names and metadata *)

Section MetadataProperties.
Context (count_failure : Z → Z → string).

Lemma ExcelSheetMetadata_new_inr (name : string) (rc cc : Z)
    (headers : list label) (sm : ExcelSheetMetadata) :
  ExcelSheetMetadata_new count_failure name rc cc headers = inr sm ↔
  (0 < rc)%Z ∧ (0 < cc)%Z ∧
  ∃ texts, mapM header_text headers = Some texts ∧
           sm = mk_ExcelSheetMetadata name rc cc texts.
Proof.
  unfold ExcelSheetMetadata_new, validate_counts.
  destruct (Z.leb_spec rc 0), (Z.leb_spec cc 0);
    try (split; [discriminate | intros (?&?&?); lia]).
  destruct (mapM header_text headers) as [texts|].
  - split.
    + intros [= <-]. split; [done|]. split; [done|]. by exists texts.
    + by intros (_&_&?&[= <-]&->).
  - split; [discriminate | by intros (_&_&?&?&_)].
Qed.

Lemma ExcelSheetMetadata_new_counts (name : string) (rc cc : Z)
    (headers : list label) :
  (rc ≤ 0)%Z ∨ (cc ≤ 0)%Z →
  ExcelSheetMetadata_new count_failure name rc cc headers
  = inl (Failed (count_failure rc cc)).
Proof.
  unfold ExcelSheetMetadata_new, validate_counts.
  destruct (Z.leb_spec rc 0), (Z.leb_spec cc 0); try done. lia.
Qed.

(** The loop returns a list exactly when every sheet can be read twice, has
    a row and a column, and has headers that are strings or numbers; the
    list then describes the sheets one by one. *)
Lemma sheet_metadata_list_inr (env : environment) (files : workbook_files)
    (file_path : string) (names : list string)
    (sheets : list ExcelSheetMetadata) :
  sheet_metadata_list count_failure env files file_path names = inr sheets ↔
  Forall2 (λ name sm,
             ∃ df_header df texts,
               read_header files file_path name = inr df_header ∧
               read_sheet env file_path name = inr df ∧
               rows df ≠ [] ∧ columns df ≠ [] ∧
               mapM header_text (columns df_header) = Some texts ∧
               sm = mk_ExcelSheetMetadata name
                      (Z.of_nat (length (rows df)))
                      (Z.of_nat (length (columns df)))
                      texts)
    names sheets.
Proof.
  revert sheets. induction names as [|name rest IH]; intros sheets; simpl.
  - split; [intros [= <-]; constructor | by intros ->%Forall2_nil_inv_l].
  - split.
    + destruct (read_header files file_path name) as [|df_header] eqn:Eh;
        [discriminate|].
      destruct (read_sheet env file_path name) as [|df] eqn:Er;
        [discriminate|].
      destruct (ExcelSheetMetadata_new _ _ _ _ _) as [|sm] eqn:Enew;
        [discriminate|].
      destruct (sheet_metadata_list _ _ _ _ rest) as [|others] eqn:Erest;
        [discriminate|].
      intros [= <-].
      apply ExcelSheetMetadata_new_inr in Enew as (Hr&Hc&texts&Ht&->).
      constructor; [|by apply IH].
      exists df_header, df, texts. repeat split; try done.
      * intros Hnil. rewrite Hnil in Hr. simpl in Hr. lia.
      * intros Hnil. rewrite Hnil in Hc. simpl in Hc. lia.
    + intros Hall. apply Forall2_cons_inv_l in Hall
        as (sm & others & (df_header&df&texts&Eh&Er&Hr&Hc&Ht&->) & Hrest
            & ->).
      rewrite Eh, Er. apply IH in Hrest. rewrite Hrest.
      assert (Hnew : ExcelSheetMetadata_new count_failure name
                (Z.of_nat (length (rows df)))
                (Z.of_nat (length (columns df))) (columns df_header)
              = inr (mk_ExcelSheetMetadata name
                       (Z.of_nat (length (rows df)))
                       (Z.of_nat (length (columns df)))
                       texts)).
      { apply ExcelSheetMetadata_new_inr.
        split; [destruct (rows df); [done | simpl; lia]|].
        split; [destruct (columns df); [done | simpl; lia]|].
        by exists texts. }
      by rewrite Hnew.
Qed.

(** The loop stops at the first sheet without a row or without a column,
    with the exception of [ExcelSheetMetadata]. *)
Lemma sheet_metadata_list_stops (env : environment) (files : workbook_files)
    (file_path : string) (before after : list string) (name : string)
    (sheets : list ExcelSheetMetadata) (df_header df : DataFrame) :
  sheet_metadata_list count_failure env files file_path before = inr sheets →
  read_header files file_path name = inr df_header →
  read_sheet env file_path name = inr df →
  rows df = [] ∨ columns df = [] →
  sheet_metadata_list count_failure env files file_path
    (before ++ name :: after) =
  inl (Failed (count_failure (Z.of_nat (length (rows df)))
                 (Z.of_nat (length (columns df))))).
Proof.
  intros Hbefore Eh Er Hempty. revert sheets Hbefore.
  induction before as [|first before IH]; intros sheets; simpl.
  - intros _. rewrite Eh, Er.
    rewrite ExcelSheetMetadata_new_counts; [done|].
    destruct Hempty as [-> | ->]; simpl; lia.
  - destruct (read_header files file_path first); [discriminate|].
    destruct (read_sheet env file_path first); [discriminate|].
    destruct (ExcelSheetMetadata_new _ _ _ _ _); [discriminate|].
    destruct (sheet_metadata_list _ _ _ _ before) as [|others] eqn:Erest;
      [discriminate|].
    intros _. by rewrite (IH others).
Qed.

Lemma get_file_metadata_inr (env : environment) (files : workbook_files)
    (file_path : string) (metadata : ExcelFileMetadata) :
  get_file_metadata count_failure env files file_path = inr metadata ↔
  path_exists env file_path = true ∧
  ∃ last_modified file_size names sheets,
    stat files file_path = inr (last_modified, file_size) ∧
    excel_sheet_names files file_path = inr names ∧
    sheet_metadata_list count_failure env files file_path names
      = inr sheets ∧
    metadata = mk_ExcelFileMetadata file_path (Some file_size)
                 (Some last_modified) sheets.
Proof.
  unfold get_file_metadata, ExcelFileMetadata_new.
  destruct (path_exists env file_path); simpl;
    [|split; [discriminate | by intros [? _]]].
  destruct (stat files file_path) as [e|[last_modified file_size]].
  { split; [by destruct e | intros (_&?&?&?&?&[=]&_)]. }
  destruct (excel_sheet_names files file_path) as [e|names].
  { split; [by destruct e | intros (_&?&?&?&?&_&[=]&_)]. }
  destruct (sheet_metadata_list _ _ _ _ names) as [f|sheets] eqn:Elist.
  { split; [by destruct f as [[]|]|].
    intros (_&?&?&?&?&_&[= <-]&Hlist&_). congruence. }
  split.
  - intros [= <-]. split; [done|].
    by exists last_modified, file_size, names, sheets.
  - intros (_&?&?&?&?&[= <- <-]&[= <-]&Hlist&->). congruence.
Qed.

(** X12. The metadata of a workbook, when [get_file_metadata] returns it: the
    file exists; the path is the one asked for, the size and the time are
    those of [os.stat]; there is one sheet record per sheet of the workbook,
    in the order of the workbook, under the names that [get_sheet_names]
    returns; each has the numbers of rows and columns of the full read of
    its sheet, both positive, and the headers of the header read, as the
    strings that their validation as [List[str]] makes of them; the number
    of headers is not compared with the column count. *)
Theorem file_metadata_describes_every_sheet (env : environment)
    (files : workbook_files) (file_path : string)
    (metadata : ExcelFileMetadata) :
  get_file_metadata count_failure env files file_path = inr metadata →
  path_exists env file_path = true ∧
  fm_file_path metadata = file_path ∧
  (∃ last_modified file_size,
     stat files file_path = inr (last_modified, file_size) ∧
     fm_file_size metadata = Some file_size ∧
     fm_last_modified metadata = Some last_modified) ∧
  get_sheet_names files file_path
    = inr (sm_sheet_name <$> fm_sheets metadata) ∧
  Forall (λ sm,
            ∃ df_header df,
              read_header files file_path (sm_sheet_name sm)
                = inr df_header ∧
              read_sheet env file_path (sm_sheet_name sm) = inr df ∧
              sm_row_count sm = Z.of_nat (length (rows df)) ∧
              sm_column_count sm = Z.of_nat (length (columns df)) ∧
              mapM header_text (columns df_header)
                = Some (sm_column_headers sm) ∧
              (0 < sm_row_count sm)%Z ∧ (0 < sm_column_count sm)%Z)
    (fm_sheets metadata).
Proof.
  intros (Hex & last_modified & file_size & names & sheets & Hstat & Hnames
          & Hlist & ->)%get_file_metadata_inr.
  apply sheet_metadata_list_inr in Hlist. simpl.
  split; [done|]. split; [done|].
  split; [by exists last_modified, file_size|]. split.
  - unfold get_sheet_names. rewrite Hnames. f_equal.
    clear Hnames. induction Hlist as [|name sm names sheets Hsm _ IH]; [done|].
    destruct Hsm as (?&?&?&_&_&_&_&_&->). simpl. by rewrite IH.
  - clear Hnames. induction Hlist as [|name sm names sheets Hsm _ IH];
      constructor; [|done].
    destruct Hsm as (df_header&df&texts&Eh&Er&Hr&Hc&Ht&->). simpl.
    exists df_header, df. repeat split; try done.
    + destruct (rows df); [done | simpl; lia].
    + destruct (columns df); [done | simpl; lia].
Qed.

(** X13. One sheet without a data row, or without a column, is enough for the
    workbook to have no metadata: [get_file_metadata] raises.  When the
    sheets before it are read and have cells, and its own two reads
    succeed, what is raised is a plain [Exception] around the text of the
    exception of [ExcelSheetMetadata]; the sheets after it are not read. *)
Theorem sheet_without_cells_fails_metadata (env : environment)
    (files : workbook_files) (file_path : string) (names : list string)
    (name : string) (df : DataFrame) :
  excel_sheet_names files file_path = inr names →
  name ∈ names →
  read_sheet env file_path name = inr df →
  rows df = [] ∨ columns df = [] →
  (∃ e, get_file_metadata count_failure env files file_path = inl e) ∧
  (∀ before after sheets df_header st,
     names = before ++ name :: after →
     path_exists env file_path = true →
     stat files file_path = inr st →
     sheet_metadata_list count_failure env files file_path before
       = inr sheets →
     read_header files file_path name = inr df_header →
     get_file_metadata count_failure env files file_path =
       inl (PyException
              ("Error getting file metadata: " +:+
               count_failure (Z.of_nat (length (rows df)))
                 (Z.of_nat (length (columns df)))))).
Proof.
  intros Hnames Hin Er Hempty. split.
  - destruct (get_file_metadata _ _ _ _) as [e|metadata] eqn:Hget;
      [by exists e|].
    apply get_file_metadata_inr in Hget
      as (_&?&?&names'&sheets&_&Hnames'&Hlist&_).
    rewrite Hnames in Hnames'. injection Hnames' as <-.
    apply sheet_metadata_list_inr in Hlist.
    apply list_elem_of_lookup in Hin as (i&Hi).
    destruct (Forall2_lookup_l _ _ _ _ _ Hlist Hi)
      as (sm&_&?&df'&?&_&Er'&Hr&Hc&_).
    rewrite Er in Er'. injection Er' as <-. by destruct Hempty.
  - intros before after sheets df_header [last_modified file_size]
      -> Hex Hstat Hbefore Eh.
    unfold get_file_metadata. rewrite Hex, Hstat, Hnames. simpl.
    by rewrite (sheet_metadata_list_stops _ _ _ _ _ _ _ _ _ Hbefore Eh Er
                  Hempty).
Qed.

(** X14. What [get_sheet_names] and [get_file_metadata] raise is a
    [FileNotFoundError] or a [PermissionError] with the text of the
    extractor, or a plain [Exception] whose text starts with the text of the
    method; [get_sheet_names] returns the names of the workbook as they are,
    and does not ask whether the file exists, while [get_file_metadata]
    reads nothing of a file that does not exist. *)
Theorem workbook_failures_are_rewrapped (env : environment)
    (files : workbook_files) (file_path : string) :
  let not_found :=
    FileNotFoundError
      ("Excel file not found: " +:+ file_path +:+
       ". Make sure the path is correct.") in
  let refused :=
    PermissionError
      ("Cannot access " +:+ file_path +:+
       ". Please check your VPN connection and try again.") in
  (∀ names,
     get_sheet_names files file_path = inr names ↔
     excel_sheet_names files file_path = inr names) ∧
  (∀ e,
     get_sheet_names files file_path = inl e →
     e = not_found ∨ e = refused ∨
     ∃ e', excel_sheet_names files file_path = inl e' ∧
           e = PyException ("Error reading Excel file: " +:+ str_exn e')) ∧
  (path_exists env file_path = false →
   get_file_metadata count_failure env files file_path = inl not_found) ∧
  (∀ e,
     get_file_metadata count_failure env files file_path = inl e →
     e = not_found ∨ e = refused ∨
     ∃ text, e = PyException ("Error getting file metadata: " +:+ text)).
Proof.
  intros not_found refused. split; [|split; [|split]].
  - intros names. unfold get_sheet_names.
    destruct (excel_sheet_names files file_path) as [[]|]; split;
      try discriminate; by intros [= <-].
  - intros e. unfold get_sheet_names.
    destruct (excel_sheet_names files file_path) as [[]|];
      intros [= <-]; eauto 6.
  - intros Hex. unfold get_file_metadata. by rewrite Hex.
  - intros e. unfold get_file_metadata.
    destruct (if negb (path_exists env file_path) then _ else _)
      as [[[]|]|]; intros [= <-]; eauto 6.
Qed.
End MetadataProperties.

(** * The context of the log messages *)

Lemma dict_set_keys {V} (d : list (string * V)) (k : string) (v : V) :
  (dict_set d k v).*1 = if decide (k ∈ d.*1) then d.*1 else d.*1 ++ [k].
Proof.
  induction d as [|[k' v'] d IH].
  - by destruct (decide (k ∈ [])) as [?%elem_of_nil|].
  - cbn [dict_set]. rewrite fmap_cons. cbn [fst].
    destruct (decide (k' = k)) as [->|Hne].
    + rewrite fmap_cons. cbn [fst].
      by destruct (decide (k ∈ k :: d.*1)) as [|[]%not_elem_of_cons].
    + rewrite fmap_cons, IH. cbn [fst].
      destruct (decide (k ∈ d.*1)) as [Hin|Hout],
        (decide (k ∈ k' :: d.*1)) as [Hin'|Hout']; try done.
      * destruct Hout'. by apply list_elem_of_further.
      * apply elem_of_cons in Hin' as [->|?]; done.
Qed.

Lemma dict_get_set {V} (d : list (string * V)) (k k' : string) (v : V) :
  dict_get (dict_set d k v) k' =
  if decide (k = k') then Some v else dict_get d k'.
Proof.
  induction d as [|[k0 v0] d IH]; simpl.
  - by destruct (decide (k = k')).
  - destruct (decide (k0 = k)) as [->|Hne]; simpl.
    + by destruct (decide (k = k')).
    + rewrite IH. destruct (decide (k0 = k')) as [->|]; [|done].
      by rewrite decide_False.
Qed.

Lemma add_context_cons (context kwargs : list (string * string))
    (k v : string) :
  add_context context ((k, v) :: kwargs) =
  add_context (dict_set context k v) kwargs.
Proof. reflexivity. Qed.

Lemma add_context_keys_prefix (context kwargs : list (string * string)) :
  context.*1 `prefix_of` (add_context context kwargs).*1.
Proof.
  revert context. induction kwargs as [|[k v] kwargs IH]; intros context.
  - done.
  - rewrite add_context_cons. etrans; [|apply IH].
    rewrite dict_set_keys. destruct (decide _); [done|].
    by apply prefix_app_r.
Qed.

Lemma add_context_keys_elem_of (context kwargs : list (string * string))
    (k : string) :
  k ∈ (add_context context kwargs).*1 ↔ k ∈ context.*1 ∨ k ∈ kwargs.*1.
Proof.
  revert context. induction kwargs as [|[k' v] kwargs IH]; intros context.
  - simpl. rewrite elem_of_nil. tauto.
  - rewrite add_context_cons, IH, dict_set_keys. simpl.
    rewrite elem_of_cons.
    destruct (decide (k' ∈ context.*1)) as [Hin|Hout].
    + split; [tauto|]. intros [?|[->|?]]; tauto.
    + rewrite elem_of_app, list_elem_of_singleton. tauto.
Qed.

Lemma add_context_keys_NoDup (context kwargs : list (string * string)) :
  NoDup context.*1 → NoDup (add_context context kwargs).*1.
Proof.
  revert context. induction kwargs as [|[k v] kwargs IH]; intros context Hnd.
  - done.
  - rewrite add_context_cons. apply IH. rewrite dict_set_keys.
    destruct (decide (k ∈ context.*1)) as [Hin|Hout]; [done|].
    apply NoDup_app. split; [done|]. split; [|apply NoDup_singleton].
    by intros x Hx ->%list_elem_of_singleton.
Qed.

Lemma add_context_get_other (context kwargs : list (string * string))
    (k : string) :
  k ∉ kwargs.*1 →
  dict_get (add_context context kwargs) k = dict_get context k.
Proof.
  revert context. induction kwargs as [|[k' v] kwargs IH]; intros context.
  - done.
  - rewrite fmap_cons, not_elem_of_cons. cbn [fst]. intros [Hne Hout].
    rewrite add_context_cons, IH by done. rewrite dict_get_set.
    by rewrite decide_False.
Qed.

Lemma add_context_get_new (context kwargs : list (string * string))
    (k v : string) :
  NoDup kwargs.*1 → (k, v) ∈ kwargs →
  dict_get (add_context context kwargs) k = Some v.
Proof.
  revert context. induction kwargs as [|[k' v'] kwargs IH]; intros context.
  - by intros _ ?%elem_of_nil.
  - rewrite fmap_cons. cbn [fst].
    intros [Hout Hnd]%NoDup_cons [[= <- <-]|Hin]%elem_of_cons.
    + rewrite add_context_cons, add_context_get_other by done.
      rewrite dict_get_set. by rewrite decide_True.
    + rewrite add_context_cons. by apply IH.
Qed.

(** X15. [add_context] works on the context as [dict.update] does: the keys
    that were there stay, in their places, and the new ones follow; no key
    comes twice; a key that is passed is bound to the value passed with it,
    and every other key to what it was bound to; so that nothing once put
    in the context leaves it. *)
Theorem add_context_keeps_earlier_keys
    (context kwargs : list (string * string)) :
  context.*1 `prefix_of` (add_context context kwargs).*1 ∧
  (∀ k, k ∈ (add_context context kwargs).*1 ↔
        k ∈ context.*1 ∨ k ∈ kwargs.*1) ∧
  (NoDup context.*1 → NoDup (add_context context kwargs).*1) ∧
  (∀ k, k ∉ kwargs.*1 →
        dict_get (add_context context kwargs) k = dict_get context k) ∧
  (∀ k v, NoDup kwargs.*1 → (k, v) ∈ kwargs →
          dict_get (add_context context kwargs) k = Some v).
Proof.
  split; [apply add_context_keys_prefix|].
  split; [apply add_context_keys_elem_of|].
  split; [apply add_context_keys_NoDup|].
  split; [apply add_context_get_other | apply add_context_get_new].
Qed.

(** The first pair of a context stays where it is when its key is not
    passed again. *)
Lemma add_context_head (k0 v0 : string)
    (context kwargs : list (string * string)) :
  k0 ∉ kwargs.*1 →
  add_context ((k0, v0) :: context) kwargs =
  (k0, v0) :: add_context context kwargs.
Proof.
  revert context. induction kwargs as [|[k v] kwargs IH]; intros context.
  - done.
  - rewrite fmap_cons, not_elem_of_cons. cbn [fst]. intros [Hne Hout].
    rewrite !add_context_cons. cbn [dict_set].
    rewrite decide_False by done. by apply IH.
Qed.

Lemma sheet_context_keys (sheet : option string) (k : string) :
  k ∈ (sheet_context sheet).*1 → k = "sheet_name".
Proof.
  destruct sheet as [name|]; simpl; [|by intros ?%elem_of_nil].
  destruct (decide (name = "")); simpl; [by intros ?%elem_of_nil|].
  by intros ->%list_elem_of_singleton.
Qed.

Lemma context_after_head (v0 : string) (context : list (string * string))
    (call : extractor_call) :
  ∃ context',
    context_after (("file_path", v0) :: context) call =
    ("file_path", v0) :: context'.
Proof.
  assert (Hsheet : ∀ sheet, "file_path" ∉ (sheet_context sheet).*1).
  { intros sheet Hin. by apply sheet_context_keys in Hin. }
  destruct call as [sheet| | |sheet|folder_path pattern]; cbn [context_after].
  - rewrite add_context_head by done. by eexists.
  - by eexists.
  - by eexists.
  - rewrite !add_context_head by done. by eexists.
  - rewrite add_context_head; [by eexists|].
    apply (bool_decide_unpack _). by vm_compute.
Qed.

Lemma str_app_assoc (s1 s2 s3 : string) :
  (s1 +:+ s2) +:+ s3 = s1 +:+ (s2 +:+ s3).
Proof.
  induction s1 as [|a s1 IH]; [done|].
  change (String a ((s1 +:+ s2) +:+ s3) = String a (s1 +:+ s2 +:+ s3)).
  by rewrite IH.
Qed.

Lemma str_length_app (s1 s2 : string) :
  String.length (s1 +:+ s2) = String.length s1 + String.length s2.
Proof.
  induction s1 as [|a s1 IH]; [done|].
  change (S (String.length (s1 +:+ s2))
          = S (String.length s1 + String.length s2)).
  by rewrite IH.
Qed.

(** X16. Every message that the logger of an extractor writes names the file of
    the extractor first in its context, whatever methods were called before
    and whatever they were called with; a logger without context, as the
    one of the models, writes its messages as they are, and only such a
    logger does. *)
Theorem extractor_messages_name_the_file (file_path : string)
    (calls : list extractor_call) (msg : string) :
  (∃ rest,
     format_message (foldl context_after (ExcelExtractor_init file_path) calls)
       msg
     = msg +:+ " [Context: file_path=" +:+ file_path +:+ rest) ∧
  (∀ context, format_message context msg = msg ↔ context = []).
Proof.
  split.
  - assert (Hhead : ∃ context,
      foldl context_after (ExcelExtractor_init file_path) calls =
      ("file_path", file_path) :: context).
    { change (ExcelExtractor_init file_path) with [("file_path", file_path)].
      generalize (@nil (string * string)).
      induction calls as [|call calls IH]; intros context; [by eexists|].
      simpl. destruct (context_after_head file_path context call)
        as (context' & ->). apply IH. }
    destruct Hhead as (context & ->). unfold format_message, str_join.
    destruct context as [|p context].
    + by exists "]".
    + exists (" | " +:+ String.concat " | "
                         ((λ p, p.1 +:+ "=" +:+ p.2) <$> p :: context)
              +:+ "]").
      simpl. by rewrite !str_app_assoc.
  - intros context. split; [|by intros ->].
    destruct context as [|p context]; [done|]. unfold format_message.
    intros Heq. exfalso.
    apply (f_equal String.length) in Heq.
    rewrite !str_length_app in Heq. simpl in Heq. lia.
Qed.

(** X17. The sheet name stays in the context: once a call has named a sheet,
    the messages of every later call that names none (no sheet, or the
    empty name) still carry that sheet's name, and a later call that names
    one replaces it. *)
Theorem sheet_name_context_persists (context : list (string * string))
    (calls : list extractor_call) (name : string) :
  (name ≠ "" →
   dict_get (context_after context (call_extract_data (Some name)))
     "sheet_name" = Some name ∧
   dict_get (context_after context (call_extract_validated_data (Some name)))
     "sheet_name" = Some name) ∧
  (dict_get context "sheet_name" = Some name →
   Forall (λ call,
             ∀ s, call = call_extract_data (Some s) ∨
                  call = call_extract_validated_data (Some s) → s = "")
     calls →
   dict_get (foldl context_after context calls) "sheet_name" = Some name).
Proof.
  split.
  - intros Hname. unfold context_after, sheet_context.
    rewrite decide_False by done.
    rewrite !add_context_cons. simpl. rewrite !dict_get_set.
    by rewrite !decide_True.
  - intros Hget Hcalls. revert context Hget.
    induction Hcalls as [|call calls Hcall _ IH]; intros context Hget;
      [done|].
    simpl. apply IH.
    assert (Hnone : ∀ sheet,
      (∀ s, sheet = Some s → s = "") → sheet_context sheet = []).
    { intros [s|] Hs; [|done]. simpl. by rewrite decide_True by auto. }
    destruct call as [sheet| | |sheet|folder_path pattern];
      cbn [context_after]; try done.
    + rewrite Hnone; [done|]. intros s ->. apply Hcall. by left.
    + rewrite Hnone; [done|]. intros s ->. apply Hcall. by right.
    + rewrite add_context_get_other; [done|].
      apply (bool_decide_unpack _). by vm_compute.
Qed.

(** * The further properties on the data of the tests *)

Lemma status_is_a_member_value_witness :
  ∃ errs,
    FunnelEntry_new no_coercion
      (<["status" := PScalar (SStr "high")]> minimal_kwargs)
    = inl (ValidationError "FunnelEntry" errs) ∧
    enum_error "status" ∈ errs.
Proof.
  apply (proj1 (proj2 (proj2 (status_is_a_member_value no_coercion)))
           _ (PScalar (SStr "high")));
    [apply lookup_insert_eq | done | by intros []].
Defined.

Lemma contact_email_holds_at_sign_witness :
  ∃ errs,
    Contact_new no_coercion
      (dict_of_pairs [("name", PScalar (SStr "Jane Doe"));
                      ("email", PScalar (SStr "jane.example.com"))])
    = inl errs ∧
    value_error ["email"] "Invalid email format" ∈ errs.
Proof.
  apply (proj1 (proj2 (contact_email_holds_at_sign no_coercion))
           _ (PScalar (SStr "jane.example.com")) "jane.example.com");
    reflexivity.
Defined.

Lemma entry_contacts_validated_witness :
  ∃ e cs,
    FunnelEntry_new no_coercion
      (<["contacts" :=
           PList [PDict [("name", PScalar (SStr "Jane Doe"));
                         ("email", PScalar (SStr "jane@example.com"))]]]>
         minimal_kwargs) = inr e ∧
    contacts e = Some cs ∧ length cs = 1.
Proof.
  assert (Hnew : ∃ e,
    FunnelEntry_new no_coercion
      (<["contacts" :=
           PList [PDict [("name", PScalar (SStr "Jane Doe"));
                         ("email", PScalar (SStr "jane@example.com"))]]]>
         minimal_kwargs) = inr e)
    by (eexists; vm_compute; reflexivity).
  destruct Hnew as [e He].
  destruct (proj1 (proj2 (proj2 (entry_contacts_validated no_coercion)))
              _ e _ (lookup_insert_eq _ _ _) He) as (cs & Hcs & Hlen & _).
  by exists e, cs.
Defined.

Lemma blank_cells_are_absent_witness :
  cleaned_record
    (<[LStr "notes" := CVal (SFloat PrimFloat.nan)]>
       (dict_of_pairs [(LStr "company_name", CVal (SStr "XYZ Ltd"))])) =
  delete (LStr "notes")
    (cleaned_record
       (dict_of_pairs [(LStr "company_name", CVal (SStr "XYZ Ltd"))])).
Proof.
  apply (proj1 blank_cells_are_absent). reflexivity.
Defined.

Lemma mapping_reads_sheet_columns_witness :
  ∃ record,
    mapped_records default_mapping mock_excel_data !! 0%nat = Some record ∧
    record !! LStr "company_name" = Some (CVal (SStr "ABC Corp")).
Proof.
  destruct (proj2 (proj2 mapping_reads_sheet_columns) default_mapping
              mock_excel_data 0%nat
              (funnel_row "ABC Corp" "Website Redesign" 50000 80 "High"
                 (date 2025 1 1) (date 2025 3 31)
                 "Redesign of corporate website" (date 2025 1 15))
              0%nat (LStr "Company") (CVal (SStr "ABC Corp")))
    as (record & Hrecord & Hmapped & _); try reflexivity.
  { apply (bool_decide_unpack _). by vm_compute. }
  exists record. split; [exact Hrecord|].
  by apply (Hmapped "Company" "company_name").
Defined.

Lemma missing_required_column_fails_every_row_witness :
  ∃ messages,
    extract_validated_data no_coercion (workbook mock_excel_data)
      (date 2025 4 16) "sample_funnel.xlsx" (Some "Sheet1") (Some ∅) =
      inl (ValueError
             ("Data validation errors: " +:+ str_join "; " messages)) ∧
    length messages = 3%nat.
Proof.
  apply (missing_required_column_fails_every_row no_coercion
           (workbook mock_excel_data) (date 2025 4 16) "sample_funnel.xlsx"
           (Some "Sheet1") (Some ∅) mock_excel_data "company_name").
  - reflexivity.
  - done.
  - apply list_elem_of_here.
  - apply (bool_decide_unpack _). by vm_compute.
Defined.

Lemma dataset_returned_iff_no_row_fails_witness :
  ∃ data,
    extract_validated_data no_coercion (workbook mock_excel_data)
      (date 2025 4 16) "sample_funnel.xlsx" (Some "Sheet1") None = inr data ∧
    length (entries data) = 3%nat ∧
    sheet_name data = Some "Sheet1".
Proof.
  destruct (dataset_returned_iff_no_row_fails no_coercion
              (workbook mock_excel_data) (date 2025 4 16)
              "sample_funnel.xlsx" (Some "Sheet1") None mock_excel_data
              eq_refl) as [Hiff Hdata].
  destruct (proj1 Hiff) as [data Hget]; [by vm_compute|].
  exists data. split; [exact Hget|].
  destruct (Hdata data Hget) as (Hlen & _ & _ & _ & Hsheet & _).
  by split.
Defined.

Lemma extract_validated_data_raises_witness :
  (∃ messages,
     messages ≠ [] ∧
     PyException
       "Error extracting and validating data: Excel file not found: missing.xlsx. Make sure the path is correct."
     = ValueError ("Data validation errors: " +:+ str_join "; " messages)) ∨
  (∃ e',
     extract_data single_file "missing.xlsx" None = inl e' ∧
     PyException
       "Error extracting and validating data: Excel file not found: missing.xlsx. Make sure the path is correct."
     = PyException ("Error extracting and validating data: " +:+ str_exn e')).
Proof.
  apply (extract_validated_data_raises no_coercion single_file
           (date 2025 4 16) "missing.xlsx" None None).
  reflexivity.
Defined.

Lemma extract_data_outcomes_witness :
  extract_data single_file "missing.xlsx" (Some "Sheet1") =
    inl (FileNotFoundError
           "Excel file not found: missing.xlsx. Make sure the path is correct.") ∧
  extract_data (workbook mock_excel_data) "sample_funnel.xlsx" None =
    inl (PyException
           "Error extracting data from Excel file: 'dict' object has no attribute 'shape'").
Proof.
  split.
  - apply (proj1 (extract_data_outcomes single_file "missing.xlsx"
                    (Some "Sheet1"))).
    reflexivity.
  - apply (proj1 (proj2 (proj2 (extract_data_outcomes
                                  (workbook mock_excel_data)
                                  "sample_funnel.xlsx" None)))
             [("Sheet1", mock_excel_data)]); reflexivity.
Defined.

Lemma scan_returns_glob_of_a_directory_witness :
  scan_folder_for_excel_files temp_excel_files "test_data" "*.xlsx" =
  inr ["test_data/sample_funnel_0.xlsx"; "test_data/sample_funnel_1.xlsx";
       "test_data/sample_funnel_2.xlsx"].
Proof.
  apply (proj1 (scan_returns_glob_of_a_directory temp_excel_files
                  "test_data" "*.xlsx")).
  by repeat split.
Defined.

Lemma file_metadata_describes_every_sheet_witness :
  ∃ metadata,
    get_file_metadata count_text (temp_excel_file [("Sheet1", mock_excel_data)])
      (temp_excel_file_stat [("Sheet1", mock_excel_data)])
      "sample_funnel.xlsx" = inr metadata ∧
    fm_file_path metadata = "sample_funnel.xlsx" ∧
    get_sheet_names (temp_excel_file_stat [("Sheet1", mock_excel_data)])
      "sample_funnel.xlsx" = inr (sm_sheet_name <$> fm_sheets metadata).
Proof.
  eexists. split; [reflexivity|].
  destruct (file_metadata_describes_every_sheet count_text
              (temp_excel_file [("Sheet1", mock_excel_data)])
              (temp_excel_file_stat [("Sheet1", mock_excel_data)])
              "sample_funnel.xlsx" _ eq_refl) as (_ & Hpath & _ & Hnames & _).
  by split.
Defined.

Lemma sheet_without_cells_fails_metadata_witness :
  ∃ e,
    get_file_metadata count_text
      (temp_excel_file [("Sheet1", mock_excel_data); ("Sheet2", empty_sheet)])
      (temp_excel_file_stat
         [("Sheet1", mock_excel_data); ("Sheet2", empty_sheet)])
      "sample_funnel.xlsx" = inl e.
Proof.
  apply (proj1 (sheet_without_cells_fails_metadata count_text
                  (temp_excel_file
                     [("Sheet1", mock_excel_data); ("Sheet2", empty_sheet)])
                  (temp_excel_file_stat
                     [("Sheet1", mock_excel_data); ("Sheet2", empty_sheet)])
                  "sample_funnel.xlsx" ["Sheet1"; "Sheet2"] "Sheet2"
                  empty_sheet eq_refl
                  (list_elem_of_further _ _ _ (list_elem_of_here _ _))
                  eq_refl (or_introl eq_refl))).
Defined.

Lemma workbook_failures_are_rewrapped_witness :
  get_file_metadata count_text single_file
    (temp_excel_file_stat [("Sheet1", mock_excel_data)]) "missing.xlsx" =
  inl (FileNotFoundError
         "Excel file not found: missing.xlsx. Make sure the path is correct.").
Proof.
  apply (proj1 (proj2 (proj2 (workbook_failures_are_rewrapped count_text
                                single_file
                                (temp_excel_file_stat
                                   [("Sheet1", mock_excel_data)])
                                "missing.xlsx")))).
  reflexivity.
Defined.

Lemma add_context_keeps_earlier_keys_witness :
  dict_get
    (add_context [("file_path", "report.xlsx"); ("sheet_name", "Sheet1")]
       [("sheet_name", "Sheet2")])
    "file_path" = Some "report.xlsx" ∧
  dict_get
    (add_context [("file_path", "report.xlsx"); ("sheet_name", "Sheet1")]
       [("sheet_name", "Sheet2")])
    "sheet_name" = Some "Sheet2".
Proof.
  destruct (add_context_keeps_earlier_keys
              [("file_path", "report.xlsx"); ("sheet_name", "Sheet1")]
              [("sheet_name", "Sheet2")]) as (_ & _ & _ & Hother & Hnew).
  split.
  - rewrite Hother; [reflexivity|].
    apply (bool_decide_unpack _). by vm_compute.
  - apply Hnew; [|apply list_elem_of_here].
    apply (bool_decide_unpack _). by vm_compute.
Defined.

Lemma sheet_name_context_persists_witness :
  dict_get
    (foldl context_after
       (context_after (ExcelExtractor_init "report.xlsx")
          (call_extract_data (Some "Sheet1")))
       [call_get_sheet_names; call_extract_validated_data None])
    "sheet_name" = Some "Sheet1".
Proof.
  apply (proj2 (sheet_name_context_persists
                  (context_after (ExcelExtractor_init "report.xlsx")
                     (call_extract_data (Some "Sheet1")))
                  [call_get_sheet_names; call_extract_validated_data None]
                  "Sheet1")).
  - reflexivity.
  - repeat constructor; intros s [?|?]; discriminate.
Defined.
